(** * Interactive Lesson Games: the page controller and the quiz widgets of
      [src/App.js], as state-transition functions.

    The React component [App] keeps four pieces of state and one asynchronous
    handler, [generateGames]; the two nested components [MultipleChoiceGame]
    and [FillInTheBlanksGame] each keep a per-instance quiz session.  Every
    [useState] cell becomes a record field, every handler a function from the
    state committed at the event to the next committed state, and the one
    suspension point of [generateGames] an explicit continuation. *)

From Stdlib Require Import Ascii String.
From stdpp Require Import base numbers list option strings gmap.

(** ** JavaScript strings

    A JavaScript string is a sequence of UTF-16 code units. *)

Abbreviation jsstring := (list N).

Local Open Scope N_scope.

(** An ASCII literal of the source, as code units. *)
Definition js (s : string) : jsstring :=
  (λ a, N_of_ascii a) <$> list_ascii_of_string s.

(** [ToBoolean] on a string: every string but the empty one is truthy. *)
Definition truthy (s : jsstring) : bool :=
  match s with
  | [] => false
  | _ :: _ => true
  end.

(** The code units [String.prototype.trim] strips: ECMAScript's WhiteSpace
    (TAB, VT, FF, ZWNBSP and the Unicode space separators) and
    LineTerminator (LF, CR, LS, PS) productions.  All of them lie in the
    Basic Multilingual Plane, so the test is the same on code units as on
    code points. *)
Definition isWhiteSpace (c : N) : bool :=
  (c =? 0x0009) || (c =? 0x000A) || (c =? 0x000B) || (c =? 0x000C)
  || (c =? 0x000D) || (c =? 0x0020) || (c =? 0x00A0) || (c =? 0x1680)
  || ((0x2000 <=? c) && (c <=? 0x200A))
  || (c =? 0x2028) || (c =? 0x2029) || (c =? 0x202F) || (c =? 0x205F)
  || (c =? 0x3000) || (c =? 0xFEFF).

Fixpoint trimStart (s : jsstring) : jsstring :=
  match s with
  | [] => []
  | c :: rest => if isWhiteSpace c then trimStart rest else s
  end.

Definition trimEnd (s : jsstring) : jsstring :=
  reverse (trimStart (reverse s)).

(** [s.trim()] *)
Definition trim (s : jsstring) : jsstring := trimEnd (trimStart s).

(** A string is blank when it is empty or holds white space only. *)
Definition blank (s : jsstring) : Prop :=
  Forall (λ c, isWhiteSpace c = true) s.

(** [String.prototype.toLowerCase] follows the Unicode case tables of the
    host; the widgets only compare its results, so it is kept abstract and
    every statement below holds for whichever function the host supplies. *)
Class StringPrototype := toLowerCase : jsstring → jsstring.

(** On code units below 128 the host's function is this one: the letters
    A to Z move to a to z and nothing else changes. *)
Definition toLowerCase_ascii : StringPrototype :=
  fmap (M := list) (λ c, if (0x41 <=? c) && (c <=? 0x5A) then c + 0x20 else c).

Local Close Scope N_scope.

(** ** Completions

    Evaluating a piece of JSX either yields a value or throws. *)

Inductive Exception :=
| ReferenceError (identifier : string)
| TypeError.

Inductive Completion (A : Type) :=
| Normal (a : A)
| Throw (e : Exception).
Arguments Normal {A} a.
Arguments Throw {A} e.

#[global] Instance Completion_ret : MRet Completion := λ A a, Normal a.

#[global] Instance Completion_bind : MBind Completion := λ A B k c,
  match c with
  | Normal a => k a
  | Throw e => Throw e
  end.

(** ** The decoded response (the shape the widgets read) *)

Module Question.
Record t := {
  question : jsstring;
  options : list jsstring;
  correctAnswer : jsstring;
  explanation : jsstring;
  hint : option jsstring
}.
End Question.

Module Blank.
Record t := {
  sentence : jsstring;
  answer : jsstring;
  explanation : jsstring;
  hint : option jsstring
}.
End Blank.

Record Game := {
  type : jsstring;
  title : jsstring;
  description : jsstring;
  questions : list Question.t;
  blanks : list Blank.t
}.

Record GameBundle := {
  lessonSummary : jsstring;
  complexity : jsstring;
  ageRange : jsstring;
  games : list Game
}.

(** ** Identifier resolution

    The feedback panels name the current item through an identifier that
    is looked up along the scope chain when the panel is evaluated.  A
    scope lists its bindings innermost first; a name bound nowhere throws
    a ReferenceError.  The chain stops at the module: the page's global
    object defines none of the names the panels use. *)

Inductive Binding :=
| BQuestion (q : Question.t)
| BBlank (b : Blank.t)
| BOpaque.

Abbreviation Scope := (list (string * Binding)).

Fixpoint resolve (x : string) (sc : Scope) : Completion Binding :=
  match sc with
  | [] => Throw (ReferenceError x)
  | (y, v) :: outer => if String.eqb x y then Normal v else resolve x outer
  end.

Definition opaque (names : list string) : Scope :=
  (λ x, (x, BOpaque)) <$> names.

(** Lines 1 to 4 and 9: the imports and [App] itself. *)
Definition module_scope : Scope :=
  opaque ["React"; "useState"; "useEffect"; "Amplify"; "post"; "config"; "App"]%string.

(** Lines 10 to 15, 59 and 139: what the body of [App] declares. *)
Definition App_scope : Scope :=
  opaque ["lessonText"; "setLessonText"; "gameData"; "setGameData";
          "loading"; "setLoading"; "error"; "setError"; "generateGames";
          "MultipleChoiceGame"; "FillInTheBlanksGame"]%string
  ++ module_scope.

(** [x.explanation]: the property read on the value an identifier is
    bound to ([None] is [undefined]). *)
Definition get_explanation (v : Binding) : option jsstring :=
  match v with
  | BQuestion q => Some (Question.explanation q)
  | BBlank b => Some (Blank.explanation b)
  | BOpaque => None
  end.

(** [x.hint] *)
Definition get_hint (v : Binding) : option jsstring :=
  match v with
  | BQuestion q => Question.hint q
  | BBlank b => Blank.hint b
  | BOpaque => None
  end.

(** What a feedback panel shows: the verdict line, the correct answer
    when the verdict is "Incorrect", the explanation line and, when the
    hint is truthy, the hint line. *)
Record FeedbackPanel := {
  verdict : bool;
  shownAnswer : option jsstring;
  explanationText : option jsstring;
  hintText : option jsstring
}.

(** [{x.hint && <p>Hint: {x.hint}</p>}] *)
Definition hint_line (h : option jsstring) : option jsstring :=
  match h with
  | Some t => if truthy t then Some t else None
  | None => None
  end.

(** ** The multiple-choice widget (lines 59 to 137) *)

Module MultipleChoiceGame.

(** The four [useState] cells; the two objects are keyed by question
    index. *)
Record State := {
  selectedAnswers : gmap nat jsstring;
  showResults : gmap nat bool;
  score : nat;
  submitted : bool
}.

Definition initial : State :=
  {| selectedAnswers := ∅; showResults := ∅; score := 0; submitted := false |}.

Definition handleOptionChange (qIndex : nat) (option : jsstring) (s : State) : State :=
  {| selectedAnswers := <[qIndex := option]> (selectedAnswers s);
     showResults := <[qIndex := false]> (showResults s);
     score := score s;
     submitted := submitted s |}.

Definition handleSubmitAnswer (qIndex : nat) (correctAnswer : jsstring) (s : State) : State :=
  {| selectedAnswers := selectedAnswers s;
     showResults := <[qIndex := true]> (showResults s);
     score :=
       if bool_decide (selectedAnswers s !! qIndex = Some correctAnswer)
          && negb (submitted s)
       then score s + 1 else score s;
     submitted := true |}.

(** [game.questions[qIndex].correctAnswer] throws when the game has no
    such question. *)
Definition isCorrect (game : Game) (qIndex : nat) (s : State) : Completion bool :=
  match questions game !! qIndex with
  | Some q' =>
      Normal (bool_decide (selectedAnswers s !! qIndex = Some (Question.correctAnswer q')))
  | None => Throw TypeError
  end.

(** [showResults[qIndex]] as a condition *)
Definition revealed (qIndex : nat) (s : State) : bool :=
  default false (showResults s !! qIndex).

(** [disabled={!selectedAnswers[qIndex]}] on the Check Answer button *)
Definition checkDisabled (qIndex : nat) (s : State) : bool :=
  negb (from_option truthy false (selectedAnswers s !! qIndex)).

(** The names visible inside the callback of [game.questions.map]. *)
Definition scope (q : Question.t) : Scope :=
  [("q", BQuestion q); ("qIndex", BOpaque)]%string
  ++ opaque ["game"; "selectedAnswers"; "setSelectedAnswers"; "showResults";
             "setShowResults"; "score"; "setScore"; "submitted"; "setSubmitted";
             "handleOptionChange"; "handleSubmitAnswer"; "isCorrect"]%string
  ++ App_scope.

(** Lines 122 to 132. *)
Definition renderFeedback (game : Game) (q : Question.t) (qIndex : nat) (s : State)
  : Completion (option FeedbackPanel) :=
  if revealed qIndex s then
    ok ← isCorrect game qIndex s;
    e ← resolve "q" (scope q);
    h ← resolve "q" (scope q);
    mret (Some {| verdict := ok;
                  shownAnswer := if ok then None else Some (Question.correctAnswer q);
                  explanationText := get_explanation e;
                  hintText := hint_line (get_hint h) |})
  else mret None.

(** The session's two transitions under the names the design gives them. *)
Inductive Event :=
| RecordResponse (index : nat) (value : jsstring)
| CheckAnswer (index : nat) (correctValue : jsstring).

Definition step (s : State) (ev : Event) : State :=
  match ev with
  | RecordResponse i v => handleOptionChange i v s
  | CheckAnswer i c => handleSubmitAnswer i c s
  end.

Definition run (s : State) (evs : list Event) : State := foldl step s evs.

End MultipleChoiceGame.

(** ** The fill-in-the-blanks widget (lines 139 to 213) *)

Module FillInTheBlanksGame.

Record State := {
  userAnswers : gmap nat jsstring;
  showResults : gmap nat bool;
  score : nat;
  submitted : bool
}.

Definition initial : State :=
  {| userAnswers := ∅; showResults := ∅; score := 0; submitted := false |}.

Definition handleInputChange (blankIndex : nat) (value : jsstring) (s : State) : State :=
  {| userAnswers := <[blankIndex := value]> (userAnswers s);
     showResults := <[blankIndex := false]> (showResults s);
     score := score s;
     submitted := submitted s |}.

Inductive Event :=
| RecordResponse (index : nat) (value : jsstring)
| CheckAnswer (index : nat) (correctValue : jsstring).

Section WithHost.
Context `{!StringPrototype}.

(** [userAnswers[blankIndex]?.toLowerCase() === correctAnswer.toLowerCase()]:
    on an absent entry the left side is [undefined], which is strictly
    equal to no string. *)
Definition isCorrect (blankIndex : nat) (correctAnswer : jsstring) (s : State) : bool :=
  match userAnswers s !! blankIndex with
  | Some r => bool_decide (toLowerCase r = toLowerCase correctAnswer)
  | None => false
  end.

Definition handleSubmitAnswer (blankIndex : nat) (correctAnswer : jsstring) (s : State) : State :=
  {| userAnswers := userAnswers s;
     showResults := <[blankIndex := true]> (showResults s);
     score :=
       if match userAnswers s !! blankIndex with
          | Some r => bool_decide (toLowerCase r = toLowerCase correctAnswer)
          | None => false
          end && negb (submitted s)
       then score s + 1 else score s;
     submitted := true |}.

Definition revealed (bIndex : nat) (s : State) : bool :=
  default false (showResults s !! bIndex).

(** [disabled={!userAnswers[bIndex]?.trim()}] on the Check Answer button *)
Definition checkDisabled (bIndex : nat) (s : State) : bool :=
  negb (from_option (λ r, truthy (trim r)) false (userAnswers s !! bIndex)).

(** The names visible inside the callback of [game.blanks.map]. *)
Definition scope (b : Blank.t) : Scope :=
  [("b", BBlank b); ("bIndex", BOpaque)]%string
  ++ opaque ["game"; "userAnswers"; "setUserAnswers"; "showResults";
             "setShowResults"; "score"; "setScore"; "submitted"; "setSubmitted";
             "handleInputChange"; "handleSubmitAnswer"; "isCorrect"]%string
  ++ App_scope.

(** Lines 198 to 208: the explanation and hint lines read [q]. *)
Definition renderFeedback (b : Blank.t) (bIndex : nat) (s : State)
  : Completion (option FeedbackPanel) :=
  if revealed bIndex s then
    let ok := isCorrect bIndex (Blank.answer b) s in
    e ← resolve "q" (scope b);
    h ← resolve "q" (scope b);
    mret (Some {| verdict := ok;
                  shownAnswer := if ok then None else Some (Blank.answer b);
                  explanationText := get_explanation e;
                  hintText := hint_line (get_hint h) |})
  else mret None.

Definition step (s : State) (ev : Event) : State :=
  match ev with
  | RecordResponse i v => handleInputChange i v s
  | CheckAnswer i c => handleSubmitAnswer i c s
  end.

Definition run (s : State) (evs : list Event) : State := foldl step s evs.

End WithHost.

End FillInTheBlanksGame.

(** ** The page controller (lines 9 to 55 and 216 to 293) *)

(** The verbs [aws-amplify/api] exports. *)
Inductive HttpMethod := GET | POST | PUT | DELETE | HEAD | PATCH.

(** A REST operation handed to the Amplify client; [lessonTextOfBody] is
    the one property of the request body. *)
Record RestOperation := {
  method : HttpMethod;
  apiName : jsstring;
  path : jsstring;
  lessonTextOfBody : jsstring
}.

(** [post({ apiName, path, options: { body: { lessonText } } })] *)
Definition post (apiName path lessonText : jsstring) : RestOperation :=
  {| method := POST; apiName := apiName; path := path; lessonTextOfBody := lessonText |}.

(** What a rejected promise carries: an error object whose [message] may
    be missing. *)
Record JsError := { message : option jsstring }.

Inductive Settled (A : Type) :=
| Fulfilled (a : A)
| Rejected (err : JsError).
Arguments Fulfilled {A} a.
Arguments Rejected {A} err.

(** The response of the operation: all the handler does with it is await
    [body.json()], which settles with the decoded bundle or rejects. *)
Record Response := { body_json : Settled GameBundle }.

(** How a settlement fails: the operation's promise rejects (the network
    or the service), or the body does not decode. *)
Definition failure (settled : Settled Response) : option JsError :=
  match settled with
  | Rejected err => Some err
  | Fulfilled response =>
      match body_json response with
      | Rejected err => Some err
      | Fulfilled _ => None
      end
  end.

Module App.

Record State := {
  lessonText : jsstring;
  gameData : option GameBundle;
  loading : bool;
  error : jsstring
}.

(** [useState('')], [useState(null)], [useState(false)], [useState('')] *)
Definition initial : State :=
  {| lessonText := []; gameData := None; loading := false; error := [] |}.

Definition setLessonText (v : jsstring) (s : State) : State :=
  {| lessonText := v; gameData := gameData s; loading := loading s; error := error s |}.

Definition setGameData (v : option GameBundle) (s : State) : State :=
  {| lessonText := lessonText s; gameData := v; loading := loading s; error := error s |}.

Definition setLoading (v : bool) (s : State) : State :=
  {| lessonText := lessonText s; gameData := gameData s; loading := v; error := error s |}.

Definition setError (v : jsstring) (s : State) : State :=
  {| lessonText := lessonText s; gameData := gameData s; loading := loading s; error := v |}.

(** A call of the asynchronous handler either returns without suspending,
    or suspends on the operation it issued.  In the second case [s] is the
    state committed at the suspension and [resume] is the rest of the
    handler: it receives how the response settled and the state current
    at that moment, since the setters it calls act on the current state. *)
Inductive Run :=
| Returned (s : State)
| Awaiting (s : State) (op : RestOperation) (resume : Settled Response → State → State).

Definition validationMessage : jsstring :=
  js "Please paste or type some lesson content.".

Definition fallbackMessage : jsstring :=
  js "Failed to generate games. Please try again. Make sure your serverless function is deployed correctly.".

(** Lines 47 to 50. *)
Definition displayError (err : JsError) : jsstring :=
  let displayError := fallbackMessage in
  match message err with
  | Some m => if truthy m then displayError ++ js " Error: " ++ m else displayError
  | None => displayError
  end.

(** The [catch] block. *)
Definition catch (err : JsError) (s : State) : State :=
  setError (displayError err) s.

(** Lines 15 to 55.  Both awaits sit in the [try]: a rejection of either
    lands in [catch], and [finally] runs on every path out of the [try]. *)
Definition generateGames (s : State) : Run :=
  if negb (truthy (trim (lessonText s))) then
    Returned (setError validationMessage s)
  else
    Awaiting
      (setError [] (setGameData None (setLoading true s)))
      (post (js "learn2gameapi") (js "/items") (lessonText s))
      (λ settled now,
         let after_try :=
           match settled with
           | Fulfilled response =>
               match body_json response with
               | Fulfilled jsonResponse => setGameData (Some jsonResponse) now
               | Rejected err => catch err now
               end
           | Rejected err => catch err now
           end in
         setLoading false after_try).

(** The operations a call has issued by the time it returns or suspends. *)
Definition requests (r : Run) : list RestOperation :=
  match r with
  | Returned _ => []
  | Awaiting _ op _ => [op]
  end.

(** The committed state a call leaves behind it. *)
Definition committed (r : Run) : State :=
  match r with
  | Returned s => s
  | Awaiting s _ _ => s
  end.

(** While the operation is outstanding the only control that still
    changes the page's state is the text area: [edits] lists the values
    typed, oldest first. *)
Definition whilePending (s : State) (edits : list jsstring) : State :=
  foldl (λ s v, setLessonText v s) s edits.

(** The state after the operation settles. *)
Definition settle (r : Run) (edits : list jsstring) (settled : Settled Response) : State :=
  match r with
  | Returned s => s
  | Awaiting s _ resume => resume settled (whilePending s edits)
  end.

End App.

(** ** Rendering (lines 216 to 293) *)

(** What line 280's callback returns for one game. *)
Inductive Element :=
| MultipleChoiceElement (game : Game)
| FillInTheBlanksElement (game : Game).

Definition renderGame (game : Game) : option Element :=
  if bool_decide (type game = js "multipleChoice") then
    Some (MultipleChoiceElement game)
  else if bool_decide (type game = js "fillInTheBlanks") then
    Some (FillInTheBlanksElement game)
  else None.

(** [gameData.games.map(...)] *)
Definition renderGames (bundle : GameBundle) : list (option Element) :=
  renderGame <$> games bundle.

(** A mounted widget: its game and the session it owns. *)
Inductive Widget :=
| MultipleChoiceWidget (game : Game) (session : MultipleChoiceGame.State)
| FillInTheBlanksWidget (game : Game) (session : FillInTheBlanksGame.State).

(** Mounting an element runs the component's [useState] initialisers. *)
Definition mount (e : Element) : Widget :=
  match e with
  | MultipleChoiceElement game => MultipleChoiceWidget game MultipleChoiceGame.initial
  | FillInTheBlanksElement game => FillInTheBlanksWidget game FillInTheBlanksGame.initial
  end.

(** The attributes of the page the statements below read. *)
Record PageView := {
  textareaValue : jsstring;
  textareaDisabled : bool;
  submitDisabled : bool;
  submitSpinner : bool;
  errorPanel : option jsstring;
  gamesPanel : option (list (option Element))
}.

(** The text area (lines 231 to 238) carries no [disabled] attribute; the
    button (lines 239 to 243) carries [disabled={loading}]. *)
Definition render (s : App.State) : PageView :=
  {| textareaValue := App.lessonText s;
     textareaDisabled := false;
     submitDisabled := App.loading s;
     submitSpinner := App.loading s;
     errorPanel := if truthy (App.error s) then Some (App.error s) else None;
     gamesPanel := renderGames <$> App.gameData s |}.

(** A click on a disabled button fires no handler. *)
Definition clickSubmit (s : App.State) : App.Run :=
  if submitDisabled (render s) then App.Returned s else App.generateGames s.

(** ** Rendering of the widgets (lines 81 to 136 and 162 to 212) *)

(** [s.split(sep)] for a separator of one code unit: the pieces between
    the occurrences of [sep], of which there is always at least one. *)
Fixpoint split (sep : N) (s : jsstring) : list jsstring :=
  match s with
  | [] => [[]]
  | c :: rest =>
      if N.eqb c sep then [] :: split sep rest
      else match split sep rest with
           | piece :: pieces => (c :: piece) :: pieces
           | [] => [[c]]
           end
  end.

(** The code unit of ['_']. *)
Definition underscore : N := 95%N.

(** [pieces.join(sep)], the inverse of [split]. *)
Fixpoint join (sep : N) (pieces : list jsstring) : jsstring :=
  match pieces with
  | [] => []
  | [piece] => piece
  | piece :: rest => piece ++ sep :: join sep rest
  end.

(** [items.map((item, index) => ...)] for a callback that may throw: the
    first throw ends the evaluation. *)
Fixpoint mapM_index {A B} (f : nat → A → Completion B) (i : nat) (l : list A)
  : Completion (list B) :=
  match l with
  | [] => mret []
  | x :: rest =>
      y ← f i x;
      ys ← mapM_index f (S i) rest;
      mret (y :: ys)
  end.

Module MultipleChoiceView.
Import MultipleChoiceGame.

(** One radio button with its label (lines 92 to 108). *)
Record OptionView := {
  optionText : jsstring;
  checked : bool;
  radioDisabled : bool;
  struck : bool;
  correctMark : bool
}.

(** One question (lines 88 to 133): [checkButton] is [None] when the
    button is not rendered and otherwise holds its [disabled] attribute. *)
Record QuestionView := {
  number : nat;
  prompt : jsstring;
  optionViews : list OptionView;
  checkButton : option bool;
  feedback : option FeedbackPanel
}.

Record View := {
  heading : jsstring;
  blurb : jsstring;
  scoreShown : nat;
  scoreOutOf : nat;
  questionViews : list QuestionView
}.

(** The class of line 102 calls [isCorrect] only when the two conditions
    before it hold. *)
Definition renderOption (game : Game) (q : Question.t) (qIndex : nat) (s : State)
  (option : jsstring) : Completion OptionView :=
  let selectedHere := bool_decide (selectedAnswers s !! qIndex = Some option) in
  strike ← (if revealed qIndex s && selectedHere
            then ok ← isCorrect game qIndex s; mret (negb ok)
            else mret false);
  mret {| optionText := option;
          checked := selectedHere;
          radioDisabled := revealed qIndex s;
          struck := strike;
          correctMark :=
            revealed qIndex s && bool_decide (Question.correctAnswer q = option) |}.

Definition renderQuestion (game : Game) (s : State) (qIndex : nat) (q : Question.t)
  : Completion QuestionView :=
  opts ← mapM_index (λ _ option, renderOption game q qIndex s option) 0 (Question.options q);
  fb ← renderFeedback game q qIndex s;
  mret {| number := qIndex + 1;
          prompt := Question.question q;
          optionViews := opts;
          checkButton := if revealed qIndex s then None else Some (checkDisabled qIndex s);
          feedback := fb |}.

Definition render (game : Game) (s : State) : Completion View :=
  qs ← mapM_index (renderQuestion game s) 0 (questions game);
  mret {| heading := title game;
          blurb := description game;
          scoreShown := score s;
          scoreOutOf := length (questions game);
          questionViews := qs |}.

(** What the user can do to the widget: change a radio button that is
    rendered and not disabled, or click a Check Answer button that is
    rendered and not disabled. *)
Inductive UiEvent :=
| ChooseOption (qIndex oIndex : nat)
| ClickCheck (qIndex : nat).

Definition ui_step (game : Game) (s : State) (ev : UiEvent) : State :=
  match ev with
  | ChooseOption qIndex oIndex =>
      match questions game !! qIndex with
      | Some q =>
          match Question.options q !! oIndex with
          | Some option =>
              if revealed qIndex s then s else handleOptionChange qIndex option s
          | None => s
          end
      | None => s
      end
  | ClickCheck qIndex =>
      match questions game !! qIndex with
      | Some q =>
          if revealed qIndex s then s
          else if checkDisabled qIndex s then s
          else handleSubmitAnswer qIndex (Question.correctAnswer q) s
      | None => s
      end
  end.

Definition ui_run (game : Game) (s : State) (evs : list UiEvent) : State :=
  foldl (ui_step game) s evs.

(** What holds of every session the user can reach from a fresh widget. *)
Definition ui_invariant (game : Game) (s : State) : Prop :=
  (∀ i o, selectedAnswers s !! i = Some o →
          ∃ q, questions game !! i = Some q ∧ o ∈ Question.options q)
  ∧ (∀ i, revealed i s = true → ∃ o, selectedAnswers s !! i = Some o ∧ o ≠ [])
  ∧ (submitted s = false → score s = 0)
  ∧ score s ≤ 1
  ∧ (score s = 1 →
     ∃ i q, questions game !! i = Some q ∧ revealed i s = true
            ∧ selectedAnswers s !! i = Some (Question.correctAnswer q)).

End MultipleChoiceView.

Module FillInTheBlanksView.
Import FillInTheBlanksGame.

(** One text input of a sentence (lines 175 to 182). *)
Record InputView := {
  value : jsstring;
  inputDisabled : bool
}.

(** One blank (lines 169 to 209): each piece of the sentence comes with
    the input that follows it, if any. *)
Record BlankView := {
  number : nat;
  fragments : list (jsstring * option InputView);
  checkButton : option bool;
  feedback : option FeedbackPanel
}.

Record View := {
  heading : jsstring;
  blurb : jsstring;
  scoreShown : nat;
  scoreOutOf : nat;
  blankViews : list BlankView
}.

(** Lines 171 to 185: every piece but the last is followed by an input
    showing [userAnswers[bIndex] || '']. *)
Definition renderSentence (b : Blank.t) (bIndex : nat) (s : State)
  : list (jsstring * option InputView) :=
  imap (λ i part,
          (part,
           if bool_decide (i < length (split underscore (Blank.sentence b)) - 1)
           then Some {| value :=
                          match userAnswers s !! bIndex with
                          | Some r => if truthy r then r else []
                          | None => []
                          end;
                        inputDisabled := revealed bIndex s |}
           else None))
       (split underscore (Blank.sentence b)).

Section WithHost.
Context `{!StringPrototype}.

Definition renderBlank (s : State) (bIndex : nat) (b : Blank.t) : Completion BlankView :=
  fb ← renderFeedback b bIndex s;
  mret {| number := bIndex + 1;
          fragments := renderSentence b bIndex s;
          checkButton := if revealed bIndex s then None else Some (checkDisabled bIndex s);
          feedback := fb |}.

Definition render (game : Game) (s : State) : Completion View :=
  bs ← mapM_index (renderBlank s) 0 (blanks game);
  mret {| heading := title game;
          blurb := description game;
          scoreShown := score s;
          scoreOutOf := length (blanks game);
          blankViews := bs |}.

(** What the user can do to the widget: type into an input that is
    rendered and not disabled, or click a Check Answer button that is
    rendered and not disabled. *)
Inductive UiEvent :=
| TypeInto (bIndex : nat) (text : jsstring)
| ClickCheck (bIndex : nat).

Definition ui_step (game : Game) (s : State) (ev : UiEvent) : State :=
  match ev with
  | TypeInto bIndex text =>
      match blanks game !! bIndex with
      | Some b =>
          if bool_decide (1 < length (split underscore (Blank.sentence b)))
             && negb (revealed bIndex s)
          then handleInputChange bIndex text s else s
      | None => s
      end
  | ClickCheck bIndex =>
      match blanks game !! bIndex with
      | Some b =>
          if revealed bIndex s then s
          else if checkDisabled bIndex s then s
          else handleSubmitAnswer bIndex (Blank.answer b) s
      | None => s
      end
  end.

Definition ui_run (game : Game) (s : State) (evs : list UiEvent) : State :=
  foldl (ui_step game) s evs.

(** What holds of every session the user can reach from a fresh widget:
    only blanks whose sentence shows an input hold a response or are
    revealed. *)
Definition ui_invariant (game : Game) (s : State) : Prop :=
  ∀ i, is_Some (userAnswers s !! i) ∨ revealed i s = true →
       ∃ b, blanks game !! i = Some b
            ∧ 1 < length (split underscore (Blank.sentence b)).

End WithHost.
End FillInTheBlanksView.

(** ** Sample games, for the closed instances below *)

Definition sampleQuestion : Question.t :=
  {| Question.question := js "What is the capital of France?";
     Question.options := [js "Paris"; js "Rome"];
     Question.correctAnswer := js "Paris";
     Question.explanation := js "Paris is the capital.";
     Question.hint := None |}.

(** A question whose correct answer is none of its options. *)
Definition unlistedQuestion : Question.t :=
  {| Question.question := js "What is the capital of Italy?";
     Question.options := [js "Paris"; js "Lyon"];
     Question.correctAnswer := js "Rome";
     Question.explanation := js "Rome is the capital.";
     Question.hint := None |}.

Definition sampleQuiz : Game :=
  {| type := js "multipleChoice"; title := js "Capitals"; description := js "Pick one.";
     questions := [sampleQuestion; unlistedQuestion]; blanks := [] |}.

Definition sampleBlank : Blank.t :=
  {| Blank.sentence := js "The capital of France is _.";
     Blank.answer := js "paris";
     Blank.explanation := js "Paris is the capital.";
     Blank.hint := Some (js "City of Light") |}.

(** A blank whose sentence has no ['_']. *)
Definition bareBlank : Blank.t :=
  {| Blank.sentence := js "Rome is the capital of Italy.";
     Blank.answer := js "rome";
     Blank.explanation := js "Rome is the capital.";
     Blank.hint := None |}.

Definition sampleBlanks : Game :=
  {| type := js "fillInTheBlanks"; title := js "Capitals"; description := js "Fill in.";
     questions := []; blanks := [sampleBlank; bareBlank] |}.

(** * Properties *)

(** ** Strings *)

Lemma trimStart_nil_iff (s : jsstring) : trimStart s = [] ↔ blank s.
Proof.
  unfold blank. induction s as [|c s IH]; simpl.
  - split; [constructor | done].
  - destruct (isWhiteSpace c) eqn:Hc.
    + rewrite IH. split.
      * intros Hs. by constructor.
      * by inversion 1.
    + split; [done |]. inversion 1; congruence.
Qed.

Lemma trimStart_blank (s : jsstring) : blank (trimStart s) ↔ blank s.
Proof.
  unfold blank. induction s as [|c s IH]; simpl; [done |].
  destruct (isWhiteSpace c) eqn:Hc; [| done].
  rewrite IH. split.
  - intros Hs. by constructor.
  - by inversion 1.
Qed.

Lemma trimEnd_nil_iff (s : jsstring) : trimEnd s = [] ↔ blank s.
Proof.
  unfold trimEnd. rewrite <- (reverse_involutive s) at 2.
  split.
  - intros Hr. apply (f_equal reverse) in Hr.
    rewrite reverse_involutive, reverse_nil in Hr.
    apply trimStart_nil_iff in Hr. unfold blank in *.
    by apply Forall_reverse.
  - intros Hb. unfold blank in Hb. apply Forall_reverse in Hb.
    rewrite reverse_involutive in Hb.
    apply trimStart_nil_iff in Hb. by rewrite Hb.
Qed.

(** [s.trim()] is the empty string exactly for the blank strings. *)
Lemma trim_nil_iff (s : jsstring) : trim s = [] ↔ blank s.
Proof. unfold trim. by rewrite trimEnd_nil_iff, trimStart_blank. Qed.

Lemma truthy_false_iff (s : jsstring) : truthy s = false ↔ s = [].
Proof. by destruct s. Qed.

(** The guard of line 16. *)
Lemma guard_blank (s : jsstring) : negb (truthy (trim s)) = true ↔ blank s.
Proof. by rewrite negb_true_iff, truthy_false_iff, trim_nil_iff. Qed.

Lemma guard_not_blank (s : jsstring) : negb (truthy (trim s)) = false ↔ ¬ blank s.
Proof.
  rewrite <- guard_blank. destruct (negb (truthy (trim s))); split; congruence.
Qed.

(** ** The page controller *)

Lemma whilePending_loading (s : App.State) (edits : list jsstring) :
  App.loading (App.whilePending s edits) = App.loading s.
Proof.
  revert s. induction edits as [|v edits IH]; intros s; [done |].
  unfold App.whilePending in *. simpl. by rewrite IH.
Qed.

Lemma whilePending_gameData (s : App.State) (edits : list jsstring) :
  App.gameData (App.whilePending s edits) = App.gameData s.
Proof.
  revert s. induction edits as [|v edits IH]; intros s; [done |].
  unfold App.whilePending in *. simpl. by rewrite IH.
Qed.

Lemma whilePending_error (s : App.State) (edits : list jsstring) :
  App.error (App.whilePending s edits) = App.error s.
Proof.
  revert s. induction edits as [|v edits IH]; intros s; [done |].
  unfold App.whilePending in *. simpl. by rewrite IH.
Qed.

(** A call on a non-blank text suspends on the one POST of lines 29 to 37. *)
Lemma generateGames_not_blank (s : App.State) :
  ¬ blank (App.lessonText s) →
  ∃ resume,
    App.generateGames s =
      App.Awaiting
        (App.setError [] (App.setGameData None (App.setLoading true s)))
        (post (js "learn2gameapi") (js "/items") (App.lessonText s))
        resume
    ∧ ∀ settled now,
        resume settled now =
          App.setLoading false
            match settled with
            | Fulfilled {| body_json := Fulfilled jsonResponse |} =>
                App.setGameData (Some jsonResponse) now
            | Fulfilled {| body_json := Rejected err |} | Rejected err =>
                App.catch err now
            end.
Proof.
  intros Hnb. apply guard_not_blank in Hnb.
  unfold App.generateGames. rewrite Hnb.
  eexists. split; [reflexivity |].
  intros [[[json|err]]|err] now; reflexivity.
Qed.

Lemma fallbackMessage_not_nil : App.fallbackMessage ≠ [].
Proof. by vm_compute. Qed.

Lemma displayError_not_nil (err : JsError) : App.displayError err ≠ [].
Proof.
  unfold App.displayError. destruct (message err) as [m|].
  - destruct (truthy m).
    + intros Happ. apply app_eq_nil in Happ as [Hf _].
      by apply fallbackMessage_not_nil.
    + apply fallbackMessage_not_nil.
  - apply fallbackMessage_not_nil.
Qed.

(** C3: after a response that decodes to [jsonResponse], [gameData] holds
    exactly [jsonResponse], [error] is the empty string and [loading] is
    false, whatever was typed while the request was outstanding. *)
Theorem C3_success_stores_bundle
  (s : App.State) (edits : list jsstring) (jsonResponse : GameBundle) :
  ¬ blank (App.lessonText s) →
  let final :=
    App.settle (App.generateGames s) edits
      (Fulfilled {| body_json := Fulfilled jsonResponse |}) in
  App.gameData final = Some jsonResponse
  ∧ App.error final = []
  ∧ App.loading final = false.
Proof.
  intros Hnb. destruct (generateGames_not_blank s Hnb) as (resume & -> & Hres).
  simpl. rewrite Hres. simpl. by rewrite whilePending_error.
Qed.

Lemma C3_success_stores_bundle_witness :
  let s := App.setLessonText (js "Photosynthesis converts light into energy.") App.initial in
  let bundle := {| lessonSummary := js "Plants"; complexity := js "Low";
                   ageRange := js "8-10"; games := [] |} in
  let final :=
    App.settle (App.generateGames s) [js "Photosynthesis!"]
      (Fulfilled {| body_json := Fulfilled bundle |}) in
  App.gameData final = Some bundle ∧ App.error final = [] ∧ App.loading final = false.
Proof.
  apply (C3_success_stores_bundle
           (App.setLessonText (js "Photosynthesis converts light into energy.") App.initial)).
  intros Hb. apply trim_nil_iff in Hb. vm_compute in Hb. discriminate.
Defined.

(** C4: after a failed request, [gameData] is unset, [error] is the
    fallback sentence followed, when the error has a truthy message, by
    [" Error: "] and that message, so it is never empty, and [loading] is
    false. *)
Theorem C4_failure_sets_error
  (s : App.State) (edits : list jsstring) (settled : Settled Response) (err : JsError) :
  ¬ blank (App.lessonText s) →
  failure settled = Some err →
  let final := App.settle (App.generateGames s) edits settled in
  App.gameData final = None
  ∧ App.error final =
      App.fallbackMessage ++
        match message err with
        | Some m => if truthy m then js " Error: " ++ m else []
        | None => []
        end
  ∧ App.error final ≠ []
  ∧ App.loading final = false.
Proof.
  intros Hnb Hfail. destruct (generateGames_not_blank s Hnb) as (resume & -> & Hres).
  simpl. rewrite Hres.
  assert (Hcatch : match settled with
                   | Fulfilled {| body_json := Fulfilled jsonResponse |} =>
                       App.setGameData (Some jsonResponse)
                         (App.whilePending
                            (App.setError [] (App.setGameData None (App.setLoading true s)))
                            edits)
                   | Fulfilled {| body_json := Rejected e |} | Rejected e =>
                       App.catch e
                         (App.whilePending
                            (App.setError [] (App.setGameData None (App.setLoading true s)))
                            edits)
                   end
                   = App.catch err
                       (App.whilePending
                          (App.setError [] (App.setGameData None (App.setLoading true s)))
                          edits)).
  { destruct settled as [[[json|e]]|e]; simpl in Hfail; congruence. }
  rewrite Hcatch. simpl. rewrite whilePending_gameData. simpl.
  repeat split.
  - unfold App.displayError. destruct (message err) as [m|]; [destruct (truthy m) |];
      by rewrite ?app_nil_r.
  - apply displayError_not_nil.
Qed.

Lemma C4_failure_sets_error_witness :
  let s := App.setLessonText (js "Photosynthesis converts light into energy.") App.initial in
  let final :=
    App.settle (App.generateGames s) []
      (Rejected {| message := Some (js "Network Error") |}) in
  App.gameData final = None
  ∧ App.error final = App.fallbackMessage ++ js " Error: " ++ js "Network Error"
  ∧ App.error final ≠ []
  ∧ App.loading final = false.
Proof.
  apply (C4_failure_sets_error
           (App.setLessonText (js "Photosynthesis converts light into energy.") App.initial)
           [] (Rejected {| message := Some (js "Network Error") |})
           {| message := Some (js "Network Error") |}).
  - intros Hb. apply trim_nil_iff in Hb. vm_compute in Hb. discriminate.
  - reflexivity.
Defined.

(** C5: on an empty or white-space-only text the handler returns at once:
    it issues no request, leaves [loading] and [gameData] as they were and
    sets [error] to the validation message. *)
Theorem C5_blank_text_is_rejected_locally (s : App.State) :
  blank (App.lessonText s) →
  App.requests (App.generateGames s) = []
  ∧ App.generateGames s = App.Returned (App.committed (App.generateGames s))
  ∧ App.loading (App.committed (App.generateGames s)) = App.loading s
  ∧ App.gameData (App.committed (App.generateGames s)) = App.gameData s
  ∧ App.error (App.committed (App.generateGames s)) = App.validationMessage.
Proof.
  intros Hb. apply guard_blank in Hb.
  unfold App.generateGames. rewrite Hb. by simpl.
Qed.

Lemma C5_blank_text_is_rejected_locally_witness :
  let s := App.setLessonText [32; 9; 10; 0x3000]%N App.initial in
  App.requests (App.generateGames s) = []
  ∧ App.generateGames s = App.Returned (App.committed (App.generateGames s))
  ∧ App.loading (App.committed (App.generateGames s)) = App.loading s
  ∧ App.gameData (App.committed (App.generateGames s)) = App.gameData s
  ∧ App.error (App.committed (App.generateGames s)) = App.validationMessage.
Proof.
  apply (C5_blank_text_is_rejected_locally
           (App.setLessonText [32; 9; 10; 0x3000]%N App.initial)).
  simpl. repeat constructor.
Defined.

(** C8: on a non-blank text the handler issues exactly one operation, a
    POST to [/items] whose body carries the text as it was at the click;
    until the operation settles [loading] is true, the submit button is
    disabled, and a click on it issues nothing. *)
Theorem C8_one_post_and_pending (s : App.State) (edits : list jsstring) :
  ¬ blank (App.lessonText s) →
  let pending := App.whilePending (App.committed (App.generateGames s)) edits in
  (∃ op, App.requests (App.generateGames s) = [op]
         ∧ method op = POST
         ∧ path op = js "/items"
         ∧ lessonTextOfBody op = App.lessonText s)
  ∧ App.loading pending = true
  ∧ submitDisabled (render pending) = true
  ∧ App.requests (clickSubmit pending) = [].
Proof.
  intros Hnb. destruct (generateGames_not_blank s Hnb) as (resume & -> & _).
  simpl. split; [by eexists |].
  assert (Hl : App.loading
                 (App.whilePending
                    (App.setError [] (App.setGameData None (App.setLoading true s)))
                    edits) = true)
    by by rewrite whilePending_loading.
  unfold clickSubmit. simpl. by rewrite Hl.
Qed.

Lemma C8_one_post_and_pending_witness :
  let s := App.setLessonText (js "Photosynthesis converts light into energy.") App.initial in
  let pending :=
    App.whilePending (App.committed (App.generateGames s)) [js "Photo"; js "Photos"] in
  (∃ op, App.requests (App.generateGames s) = [op]
         ∧ method op = POST
         ∧ path op = js "/items"
         ∧ lessonTextOfBody op = App.lessonText s)
  ∧ App.loading pending = true
  ∧ submitDisabled (render pending) = true
  ∧ App.requests (clickSubmit pending) = [].
Proof.
  apply (C8_one_post_and_pending
           (App.setLessonText (js "Photosynthesis converts light into energy.") App.initial)
           [js "Photo"; js "Photos"]).
  intros Hb. apply trim_nil_iff in Hb. vm_compute in Hb. discriminate.
Defined.

(** ** Rendering of the page *)

(** C10 fails for the text area: while [loading] is true it is not
    disabled. *)
Lemma C10_textarea_stays_enabled_while_loading :
  textareaDisabled (render (App.setLoading true App.initial))
  ≠ App.loading (App.setLoading true App.initial).
Proof. simpl. discriminate. Qed.

(** C10, amended: the text area is never disabled, whatever [loading] is;
    the submit button is disabled exactly when [loading] is true. *)
Theorem C10_controls_disabled_state (s : App.State) :
  textareaDisabled (render s) = false
  ∧ submitDisabled (render s) = App.loading s.
Proof. done. Qed.

(** ** Quiz sessions *)

Module MultipleChoiceFacts.
Import MultipleChoiceGame.

Lemma mc_handleSubmitAnswer_locks (i : nat) (c : jsstring) (s : State) :
  submitted (handleSubmitAnswer i c s) = true.
Proof. done. Qed.

Lemma mc_handleSubmitAnswer_locked (i : nat) (c : jsstring) (s : State) :
  submitted s = true → score (handleSubmitAnswer i c s) = score s.
Proof. intros Hl. simpl. by rewrite Hl, andb_false_r. Qed.

Lemma mc_step_locked (s : State) (ev : Event) :
  submitted s = true →
  submitted (step s ev) = true ∧ score (step s ev) = score s.
Proof.
  intros Hl. destruct ev as [i v|i c]; simpl; [done |].
  by rewrite Hl, andb_false_r.
Qed.

Lemma mc_run_locked (s : State) (evs : list Event) :
  submitted s = true →
  submitted (run s evs) = true ∧ score (run s evs) = score s.
Proof.
  revert s. induction evs as [|ev evs IH]; intros s Hl; [done |].
  destruct (mc_step_locked s ev Hl) as [Hl' Hs'].
  destruct (IH (step s ev) Hl') as [Hl'' Hs''].
  unfold run in *. simpl. by rewrite Hs'', Hs'.
Qed.

Lemma mc_first_check_scores (i : nat) (c : jsstring) (s : State) :
  submitted s = false →
  selectedAnswers s !! i = Some c →
  score (handleSubmitAnswer i c s) = score s + 1.
Proof.
  intros Hl Hr. simpl. by rewrite Hl, bool_decide_eq_true_2.
Qed.

End MultipleChoiceFacts.

Module FillInTheBlanksFacts.
Import FillInTheBlanksGame.

Section WithHost.
Context `{!StringPrototype}.

(** The handler scores with the very test the panel displays. *)
Lemma fib_handleSubmitAnswer_score (i : nat) (c : jsstring) (s : State) :
  score (handleSubmitAnswer i c s) =
    if isCorrect i c s && negb (submitted s) then score s + 1 else score s.
Proof. done. Qed.

Lemma fib_isCorrect_true_iff (i : nat) (c : jsstring) (s : State) :
  isCorrect i c s = true ↔
  ∃ r, userAnswers s !! i = Some r ∧ toLowerCase r = toLowerCase c.
Proof.
  unfold isCorrect. destruct (userAnswers s !! i) as [r|].
  - rewrite bool_decide_eq_true. split.
    + intros Heq. by exists r.
    + by intros (r' & [= <-] & Heq).
  - split; [done |]. by intros (r & ? & _).
Qed.

Lemma fib_handleSubmitAnswer_locks (i : nat) (c : jsstring) (s : State) :
  submitted (handleSubmitAnswer i c s) = true.
Proof. done. Qed.

Lemma fib_handleSubmitAnswer_locked (i : nat) (c : jsstring) (s : State) :
  submitted s = true → score (handleSubmitAnswer i c s) = score s.
Proof. intros Hl. rewrite fib_handleSubmitAnswer_score. by rewrite Hl, andb_false_r. Qed.

Lemma fib_step_locked (s : State) (ev : Event) :
  submitted s = true →
  submitted (step s ev) = true ∧ score (step s ev) = score s.
Proof.
  intros Hl. destruct ev as [i v|i c]; [done |].
  split; [done |]. by apply fib_handleSubmitAnswer_locked.
Qed.

Lemma fib_run_locked (s : State) (evs : list Event) :
  submitted s = true →
  submitted (run s evs) = true ∧ score (run s evs) = score s.
Proof.
  revert s. induction evs as [|ev evs IH]; intros s Hl; [done |].
  destruct (fib_step_locked s ev Hl) as [Hl' Hs'].
  destruct (IH (step s ev) Hl') as [Hl'' Hs''].
  unfold run in *. simpl foldl. by rewrite Hs'', Hs'.
Qed.

Lemma fib_first_check_scores (i : nat) (c : jsstring) (s : State) :
  submitted s = false →
  userAnswers s !! i = Some c →
  score (handleSubmitAnswer i c s) = score s + 1.
Proof.
  intros Hl Hr. rewrite fib_handleSubmitAnswer_score. unfold isCorrect.
  by rewrite Hr, Hl, bool_decide_eq_true_2.
Qed.

End WithHost.
End FillInTheBlanksFacts.

(** C1: once any item of a session has been checked, the session is
    locked and no later check changes the score, whatever item it names
    and whatever the response there; two questions answered correctly and
    checked in order leave the score at 1.  Both widgets. *)
Theorem C1_only_the_first_check_can_score `{!StringPrototype} :
  (∀ (s : MultipleChoiceGame.State) i c evs j c',
     let later := MultipleChoiceGame.run (MultipleChoiceGame.handleSubmitAnswer i c s) evs in
     MultipleChoiceGame.submitted later = true
     ∧ MultipleChoiceGame.score (MultipleChoiceGame.handleSubmitAnswer j c' later)
       = MultipleChoiceGame.score later)
  ∧ (∀ c0 c1,
       MultipleChoiceGame.score
         (MultipleChoiceGame.run MultipleChoiceGame.initial
            [MultipleChoiceGame.RecordResponse 0 c0;
             MultipleChoiceGame.RecordResponse 1 c1;
             MultipleChoiceGame.CheckAnswer 0 c0;
             MultipleChoiceGame.CheckAnswer 1 c1]) = 1)
  ∧ (∀ (s : FillInTheBlanksGame.State) i c evs j c',
       let later := FillInTheBlanksGame.run (FillInTheBlanksGame.handleSubmitAnswer i c s) evs in
       FillInTheBlanksGame.submitted later = true
       ∧ FillInTheBlanksGame.score (FillInTheBlanksGame.handleSubmitAnswer j c' later)
         = FillInTheBlanksGame.score later)
  ∧ (∀ c0 c1,
       FillInTheBlanksGame.score
         (FillInTheBlanksGame.run FillInTheBlanksGame.initial
            [FillInTheBlanksGame.RecordResponse 0 c0;
             FillInTheBlanksGame.RecordResponse 1 c1;
             FillInTheBlanksGame.CheckAnswer 0 c0;
             FillInTheBlanksGame.CheckAnswer 1 c1]) = 1).
Proof.
  split; [| split; [| split]].
  - intros s i c evs j c' later.
    destruct (MultipleChoiceFacts.mc_run_locked
                (MultipleChoiceGame.handleSubmitAnswer i c s) evs) as [Hl _]; [done |].
    split; [done |]. by apply MultipleChoiceFacts.mc_handleSubmitAnswer_locked.
  - intros c0 c1. unfold MultipleChoiceGame.run. simpl foldl.
    rewrite MultipleChoiceFacts.mc_handleSubmitAnswer_locked by done.
    rewrite MultipleChoiceFacts.mc_first_check_scores; [done | done |].
    simpl. by rewrite lookup_insert_ne, lookup_insert_eq.
  - intros s i c evs j c' later.
    destruct (FillInTheBlanksFacts.fib_run_locked
                (FillInTheBlanksGame.handleSubmitAnswer i c s) evs) as [Hl _]; [done |].
    split; [done |]. by apply FillInTheBlanksFacts.fib_handleSubmitAnswer_locked.
  - intros c0 c1. unfold FillInTheBlanksGame.run. simpl foldl.
    rewrite FillInTheBlanksFacts.fib_handleSubmitAnswer_locked by done.
    rewrite FillInTheBlanksFacts.fib_first_check_scores; [done | done |].
    simpl. by rewrite lookup_insert_ne, lookup_insert_eq.
Qed.

(** C2 fails for the empty response: against the empty answer the handler
    judges it correct and credits it. *)
Lemma C2_empty_response_scores_against_empty_answer :
  let s := FillInTheBlanksGame.handleInputChange 0 [] FillInTheBlanksGame.initial in
  FillInTheBlanksGame.userAnswers s !! 0 = Some []
  ∧ @FillInTheBlanksGame.isCorrect toLowerCase_ascii 0 [] s = true
  ∧ FillInTheBlanksGame.score (@FillInTheBlanksGame.handleSubmitAnswer toLowerCase_ascii 0 [] s) = 1
  ∧ FillInTheBlanksGame.score (@FillInTheBlanksGame.handleSubmitAnswer toLowerCase_ascii 0 [] s)
    ≠ FillInTheBlanksGame.score s.
Proof. by vm_compute. Qed.

(** C2, amended: the stored response is judged correct exactly when its
    lower-casing equals the answer's, and is credited exactly when it is
    judged correct in an unlocked session; an absent response is judged
    unequal to every answer and never credited; the empty response is
    judged incorrect and not credited against every answer whose
    lower-casing differs from that of the empty string; and the Check
    Answer button is disabled while the response is absent or blank. *)
Theorem C2_case_insensitive_matching
  `{!StringPrototype} (s : FillInTheBlanksGame.State) (i : nat) (a r : jsstring) :
  (FillInTheBlanksGame.isCorrect i a s = true ↔
     ∃ r', FillInTheBlanksGame.userAnswers s !! i = Some r' ∧ toLowerCase r' = toLowerCase a)
  ∧ (FillInTheBlanksGame.score (FillInTheBlanksGame.handleSubmitAnswer i a s)
       = FillInTheBlanksGame.score s + 1 ↔
     FillInTheBlanksGame.isCorrect i a s = true ∧ FillInTheBlanksGame.submitted s = false)
  ∧ (FillInTheBlanksGame.userAnswers s !! i = None →
     FillInTheBlanksGame.isCorrect i a s = false
     ∧ FillInTheBlanksGame.score (FillInTheBlanksGame.handleSubmitAnswer i a s)
       = FillInTheBlanksGame.score s
     ∧ FillInTheBlanksGame.checkDisabled i s = true)
  ∧ (FillInTheBlanksGame.userAnswers s !! i = Some [] →
     toLowerCase a ≠ toLowerCase [] →
     FillInTheBlanksGame.isCorrect i a s = false
     ∧ FillInTheBlanksGame.score (FillInTheBlanksGame.handleSubmitAnswer i a s)
       = FillInTheBlanksGame.score s)
  ∧ (FillInTheBlanksGame.userAnswers s !! i = Some r → blank r →
     FillInTheBlanksGame.checkDisabled i s = true).
Proof.
  split; [apply FillInTheBlanksFacts.fib_isCorrect_true_iff |].
  split.
  { rewrite FillInTheBlanksFacts.fib_handleSubmitAnswer_score.
    destruct (FillInTheBlanksGame.isCorrect i a s), (FillInTheBlanksGame.submitted s);
      simpl; split; (lia || (by intros [? ?]) || done). }
  split.
  { intros Hnone. rewrite FillInTheBlanksFacts.fib_handleSubmitAnswer_score.
    unfold FillInTheBlanksGame.isCorrect, FillInTheBlanksGame.checkDisabled.
    by rewrite Hnone. }
  split.
  { intros Hsome Hne. rewrite FillInTheBlanksFacts.fib_handleSubmitAnswer_score.
    unfold FillInTheBlanksGame.isCorrect. rewrite Hsome.
    rewrite bool_decide_eq_false_2 by congruence. done. }
  intros Hsome Hb. unfold FillInTheBlanksGame.checkDisabled. rewrite Hsome. simpl.
  apply trim_nil_iff in Hb. by rewrite Hb.
Qed.

Lemma C2_case_insensitive_matching_witness :
  let paris := FillInTheBlanksGame.handleInputChange 0 (js "Paris") FillInTheBlanksGame.initial in
  let empty := FillInTheBlanksGame.handleInputChange 0 [] FillInTheBlanksGame.initial in
  @FillInTheBlanksGame.isCorrect toLowerCase_ascii 0 (js "paris") paris = true
  ∧ FillInTheBlanksGame.score
      (@FillInTheBlanksGame.handleSubmitAnswer toLowerCase_ascii 0 (js "paris") paris) = 1
  ∧ @FillInTheBlanksGame.isCorrect toLowerCase_ascii 0 (js "paris")
      FillInTheBlanksGame.initial = false
  ∧ @FillInTheBlanksGame.isCorrect toLowerCase_ascii 0 (js "paris") empty = false
  ∧ FillInTheBlanksGame.score
      (@FillInTheBlanksGame.handleSubmitAnswer toLowerCase_ascii 0 (js "paris") empty) = 0
  ∧ FillInTheBlanksGame.checkDisabled 0 empty = true.
Proof.
  intros paris empty.
  destruct (@C2_case_insensitive_matching toLowerCase_ascii paris 0 (js "paris") [])
    as (Hjudge & Hcredit & _).
  destruct (@C2_case_insensitive_matching toLowerCase_ascii
              FillInTheBlanksGame.initial 0 (js "paris") [])
    as (_ & _ & Habsent & _).
  destruct (@C2_case_insensitive_matching toLowerCase_ascii empty 0 (js "paris") [])
    as (_ & _ & _ & Hempty & Hgate).
  split.
  { apply Hjudge. exists (js "Paris"). split; reflexivity. }
  split.
  { apply Hcredit. split; [| reflexivity].
    apply Hjudge. exists (js "Paris"). split; reflexivity. }
  split.
  { apply Habsent. reflexivity. }
  split.
  { apply Hempty; [reflexivity | vm_compute; discriminate]. }
  split.
  { apply Hempty; [reflexivity | vm_compute; discriminate]. }
  apply (Hgate eq_refl). constructor.
Defined.

(** C6: recording a response at [i] stores it at [i], resets the reveal
    flag of [i] to false, and changes neither the score, nor the lock, nor
    the response or the reveal flag of any other item [j]; so a revealed
    item whose response changes stops being revealed and the score stays.
    Both widgets. *)
Theorem C6_recordResponse_frame
  (i j : nat) (v : jsstring)
  (m : MultipleChoiceGame.State) (f : FillInTheBlanksGame.State) :
  i ≠ j →
  let m' := MultipleChoiceGame.handleOptionChange i v m in
  let f' := FillInTheBlanksGame.handleInputChange i v f in
  (MultipleChoiceGame.selectedAnswers m' !! i = Some v
   ∧ MultipleChoiceGame.showResults m' !! i = Some false
   ∧ MultipleChoiceGame.revealed i m' = false
   ∧ MultipleChoiceGame.score m' = MultipleChoiceGame.score m
   ∧ MultipleChoiceGame.submitted m' = MultipleChoiceGame.submitted m
   ∧ MultipleChoiceGame.selectedAnswers m' !! j = MultipleChoiceGame.selectedAnswers m !! j
   ∧ MultipleChoiceGame.showResults m' !! j = MultipleChoiceGame.showResults m !! j)
  ∧ (FillInTheBlanksGame.userAnswers f' !! i = Some v
     ∧ FillInTheBlanksGame.showResults f' !! i = Some false
     ∧ FillInTheBlanksGame.revealed i f' = false
     ∧ FillInTheBlanksGame.score f' = FillInTheBlanksGame.score f
     ∧ FillInTheBlanksGame.submitted f' = FillInTheBlanksGame.submitted f
     ∧ FillInTheBlanksGame.userAnswers f' !! j = FillInTheBlanksGame.userAnswers f !! j
     ∧ FillInTheBlanksGame.showResults f' !! j = FillInTheBlanksGame.showResults f !! j).
Proof.
  intros Hne m' f'. subst m' f'.
  unfold MultipleChoiceGame.revealed, FillInTheBlanksGame.revealed. simpl.
  rewrite !lookup_insert_eq. rewrite !lookup_insert_ne by done. done.
Qed.

Lemma C6_recordResponse_frame_witness :
  let m := MultipleChoiceGame.run MultipleChoiceGame.initial
             [MultipleChoiceGame.RecordResponse 0 (js "Paris");
              MultipleChoiceGame.RecordResponse 1 (js "Rome");
              MultipleChoiceGame.CheckAnswer 0 (js "Paris")] in
  let m' := MultipleChoiceGame.handleOptionChange 0 (js "Lyon") m in
  MultipleChoiceGame.revealed 0 m = true
  ∧ MultipleChoiceGame.score m = 1
  ∧ MultipleChoiceGame.selectedAnswers m' !! 0 = Some (js "Lyon")
  ∧ MultipleChoiceGame.revealed 0 m' = false
  ∧ MultipleChoiceGame.score m' = 1
  ∧ MultipleChoiceGame.submitted m' = true
  ∧ MultipleChoiceGame.selectedAnswers m' !! 1 = Some (js "Rome").
Proof.
  intros m m'. subst m'.
  destruct (C6_recordResponse_frame 0 1 (js "Lyon") m FillInTheBlanksGame.initial)
    as [(Hr & _ & Hrev & Hscore & Hlock & Hother & _) _]; [lia |].
  split; [reflexivity |]. split; [reflexivity |].
  split; [exact Hr |]. split; [exact Hrev |].
  split; [rewrite Hscore; reflexivity |].
  split; [rewrite Hlock; reflexivity |].
  rewrite Hother. reflexivity.
Defined.

(** ** The game renderer *)

(** C7: the rendered list has one entry per game, in the order of
    [games]; the entry of a game is the multiple-choice widget when its
    type is ["multipleChoice"], the fill-in-the-blanks widget when it is
    ["fillInTheBlanks"], and nothing otherwise (no case throws); a widget
    starts from its initial session. *)
Theorem C7_dispatch_on_type (bundle : GameBundle) (i : nat) (game : Game) :
  games bundle !! i = Some game →
  length (renderGames bundle) = length (games bundle)
  ∧ renderGames bundle !! i = Some (renderGame game)
  ∧ (type game = js "multipleChoice" →
     renderGame game = Some (MultipleChoiceElement game)
     ∧ mount (MultipleChoiceElement game)
       = MultipleChoiceWidget game MultipleChoiceGame.initial)
  ∧ (type game = js "fillInTheBlanks" →
     renderGame game = Some (FillInTheBlanksElement game)
     ∧ mount (FillInTheBlanksElement game)
       = FillInTheBlanksWidget game FillInTheBlanksGame.initial)
  ∧ (type game ≠ js "multipleChoice" → type game ≠ js "fillInTheBlanks" →
     renderGame game = None).
Proof.
  intros Hi. unfold renderGames.
  split; [by rewrite length_fmap |].
  split; [by rewrite list_lookup_fmap, Hi |].
  unfold renderGame. split; [| split].
  - intros Hmc. by rewrite bool_decide_eq_true_2.
  - intros Hfib. rewrite bool_decide_eq_false_2.
    + by rewrite bool_decide_eq_true_2.
    + rewrite Hfib. by vm_compute.
  - intros Hmc Hfib. by rewrite !bool_decide_eq_false_2.
Qed.

Lemma C7_dispatch_on_type_witness :
  let g (t : string) :=
    {| type := js t; title := js "T"; description := js "D";
       questions := []; blanks := [] |} in
  let bundle :=
    {| lessonSummary := js "S"; complexity := js "C"; ageRange := js "A";
       games := [g "fillInTheBlanks"; g "crossword"; g "multipleChoice"] |} in
  renderGames bundle
  = [Some (FillInTheBlanksElement (g "fillInTheBlanks")); None;
     Some (MultipleChoiceElement (g "multipleChoice"))]
  ∧ renderGame (g "fillInTheBlanks") = Some (FillInTheBlanksElement (g "fillInTheBlanks"))
  ∧ renderGame (g "crossword") = None
  ∧ renderGame (g "multipleChoice") = Some (MultipleChoiceElement (g "multipleChoice")).
Proof.
  intros g bundle.
  destruct (C7_dispatch_on_type bundle 0 (g "fillInTheBlanks") eq_refl)
    as (_ & _ & _ & Hfib & _).
  destruct (C7_dispatch_on_type bundle 1 (g "crossword") eq_refl)
    as (_ & _ & _ & _ & Hother).
  destruct (C7_dispatch_on_type bundle 2 (g "multipleChoice") eq_refl)
    as (_ & _ & Hmc & _).
  split; [reflexivity |].
  split; [apply Hfib; reflexivity |].
  split; [apply Hother; vm_compute; discriminate |].
  apply Hmc; reflexivity.
Defined.

(** ** The feedback panels *)

(** In the multiple-choice widget [q] is the callback's own parameter:
    the panel of a revealed question shows that question's explanation
    and hint. *)
Lemma MultipleChoice_feedback_reads_own_question
  (game : Game) (q : Question.t) (qIndex : nat) (s : MultipleChoiceGame.State) :
  questions game !! qIndex = Some q →
  MultipleChoiceGame.revealed qIndex s = true →
  ∃ panel,
    MultipleChoiceGame.renderFeedback game q qIndex s = Normal (Some panel)
    ∧ explanationText panel = Some (Question.explanation q)
    ∧ hintText panel = hint_line (Question.hint q).
Proof.
  intros Hq Hrev. unfold MultipleChoiceGame.renderFeedback, MultipleChoiceGame.isCorrect.
  rewrite Hrev, Hq. simpl. by eexists.
Qed.

(** In the fill-in-the-blanks widget no enclosing scope binds [q]. *)
Lemma FillInTheBlanks_q_unbound (b : Blank.t) :
  resolve "q" (FillInTheBlanksGame.scope b) = Throw (ReferenceError "q").
Proof. reflexivity. Qed.

(** So the panel of every revealed blank throws instead of rendering. *)
Lemma FillInTheBlanks_feedback_throws
  `{!StringPrototype} (b : Blank.t) (bIndex : nat) (s : FillInTheBlanksGame.State) :
  FillInTheBlanksGame.revealed bIndex s = true →
  FillInTheBlanksGame.renderFeedback b bIndex s = Throw (ReferenceError "q").
Proof.
  intros Hrev. unfold FillInTheBlanksGame.renderFeedback.
  by rewrite Hrev, FillInTheBlanks_q_unbound.
Qed.

(** C9 does not hold of the code: for one blank, answered and checked,
    the feedback panel is not bound to the blank's explanation and hint;
    evaluating it throws a ReferenceError on [q]. *)
Theorem C9_revealed_blank_panel_throws :
  let b := {| Blank.sentence := js "The capital of France is _.";
              Blank.answer := js "paris";
              Blank.explanation := js "Paris is the capital.";
              Blank.hint := Some (js "City of Light") |} in
  let s := @FillInTheBlanksGame.run toLowerCase_ascii FillInTheBlanksGame.initial
             [FillInTheBlanksGame.RecordResponse 0 (js "Paris");
              FillInTheBlanksGame.CheckAnswer 0 (Blank.answer b)] in
  FillInTheBlanksGame.revealed 0 s = true
  ∧ FillInTheBlanksGame.score s = 1
  ∧ @FillInTheBlanksGame.renderFeedback toLowerCase_ascii b 0 s
    = Throw (ReferenceError "q").
Proof.
  intros b s. split; [reflexivity |]. split; [reflexivity |].
  by apply FillInTheBlanks_feedback_throws.
Qed.

(** ** Sessions: how the handlers compose *)

(** Over any sequence of events the score of a session never decreases
    and gains at most one point.  Both widgets. *)
Theorem session_score_gains_at_most_one
  `{!StringPrototype}
  (m : MultipleChoiceGame.State) (mevs : list MultipleChoiceGame.Event)
  (f : FillInTheBlanksGame.State) (fevs : list FillInTheBlanksGame.Event) :
  (MultipleChoiceGame.score m ≤ MultipleChoiceGame.score (MultipleChoiceGame.run m mevs)
   ∧ MultipleChoiceGame.score (MultipleChoiceGame.run m mevs) ≤ MultipleChoiceGame.score m + 1)
  ∧ (FillInTheBlanksGame.score f ≤ FillInTheBlanksGame.score (FillInTheBlanksGame.run f fevs)
     ∧ FillInTheBlanksGame.score (FillInTheBlanksGame.run f fevs)
       ≤ FillInTheBlanksGame.score f + 1).
Proof.
  split.
  - revert m. induction mevs as [|ev evs IH]; intros m; [simpl; lia |].
    destruct ev as [i v|i c].
    + specialize (IH (MultipleChoiceGame.handleOptionChange i v m)). exact IH.
    + destruct (MultipleChoiceFacts.mc_run_locked
                  (MultipleChoiceGame.handleSubmitAnswer i c m) evs) as [_ Hs]; [done |].
      unfold MultipleChoiceGame.run in *. simpl foldl. rewrite Hs. simpl.
      destruct (_ && _); lia.
  - revert f. induction fevs as [|ev evs IH]; intros f; [simpl; lia |].
    destruct ev as [i v|i c].
    + specialize (IH (FillInTheBlanksGame.handleInputChange i v f)). exact IH.
    + destruct (FillInTheBlanksFacts.fib_run_locked
                  (FillInTheBlanksGame.handleSubmitAnswer i c f) evs) as [_ Hs]; [done |].
      unfold FillInTheBlanksGame.run in *. simpl foldl. rewrite Hs.
      rewrite FillInTheBlanksFacts.fib_handleSubmitAnswer_score.
      destruct (_ && _); lia.
Qed.

(** Checking the same item again with the same answer changes nothing.
    Both widgets. *)
Theorem check_is_idempotent
  `{!StringPrototype} (i : nat) (c : jsstring)
  (m : MultipleChoiceGame.State) (f : FillInTheBlanksGame.State) :
  MultipleChoiceGame.handleSubmitAnswer i c (MultipleChoiceGame.handleSubmitAnswer i c m)
  = MultipleChoiceGame.handleSubmitAnswer i c m
  ∧ FillInTheBlanksGame.handleSubmitAnswer i c (FillInTheBlanksGame.handleSubmitAnswer i c f)
    = FillInTheBlanksGame.handleSubmitAnswer i c f.
Proof.
  split.
  - unfold MultipleChoiceGame.handleSubmitAnswer. simpl.
    by rewrite insert_insert_eq, andb_false_r.
  - unfold FillInTheBlanksGame.handleSubmitAnswer. simpl.
    by rewrite insert_insert_eq, andb_false_r.
Qed.

(** Of two responses recorded at one index the later one wins, and
    responses recorded at different indices commute.  Both widgets. *)
Theorem recordings_overwrite_and_commute
  (i j : nat) (v w : jsstring)
  (m : MultipleChoiceGame.State) (f : FillInTheBlanksGame.State) :
  i ≠ j →
  (MultipleChoiceGame.handleOptionChange i w (MultipleChoiceGame.handleOptionChange i v m)
   = MultipleChoiceGame.handleOptionChange i w m
   ∧ MultipleChoiceGame.handleOptionChange i v (MultipleChoiceGame.handleOptionChange j w m)
     = MultipleChoiceGame.handleOptionChange j w (MultipleChoiceGame.handleOptionChange i v m))
  ∧ (FillInTheBlanksGame.handleInputChange i w (FillInTheBlanksGame.handleInputChange i v f)
     = FillInTheBlanksGame.handleInputChange i w f
     ∧ FillInTheBlanksGame.handleInputChange i v (FillInTheBlanksGame.handleInputChange j w f)
       = FillInTheBlanksGame.handleInputChange j w (FillInTheBlanksGame.handleInputChange i v f)).
Proof.
  intros Hne.
  unfold MultipleChoiceGame.handleOptionChange, FillInTheBlanksGame.handleInputChange. simpl.
  rewrite !insert_insert_eq.
  rewrite (insert_insert_ne (MultipleChoiceGame.selectedAnswers m) i j) by done.
  rewrite (insert_insert_ne (MultipleChoiceGame.showResults m) i j) by done.
  rewrite (insert_insert_ne (FillInTheBlanksGame.userAnswers f) i j) by done.
  rewrite (insert_insert_ne (FillInTheBlanksGame.showResults f) i j) by done.
  done.
Qed.

Lemma recordings_overwrite_and_commute_witness :
  let m := MultipleChoiceGame.initial in
  MultipleChoiceGame.selectedAnswers
    (MultipleChoiceGame.handleOptionChange 0 (js "b")
       (MultipleChoiceGame.handleOptionChange 0 (js "a") m)) !! 0 = Some (js "b")
  ∧ MultipleChoiceGame.handleOptionChange 0 (js "a")
      (MultipleChoiceGame.handleOptionChange 1 (js "b") m)
    = MultipleChoiceGame.handleOptionChange 1 (js "b")
        (MultipleChoiceGame.handleOptionChange 0 (js "a") m).
Proof.
  intros m.
  destruct (recordings_overwrite_and_commute 0 1 (js "a") (js "b") m
              FillInTheBlanksGame.initial) as [[Hlast Hcomm] _]; [lia |].
  split; [by rewrite Hlast | exact Hcomm].
Defined.

(** ** Rendering of the widgets *)

(** A list maps to a list when the callback throws on none of its
    elements; the results come in order, one per element. *)
Lemma mapM_index_Normal {A B} (f : nat → A → Completion B) (i : nat) (l : list A) :
  (∀ k x, l !! k = Some x → ∃ y, f (i + k) x = Normal y) →
  ∃ ys, mapM_index f i l = Normal ys
        ∧ length ys = length l
        ∧ ∀ k x, l !! k = Some x → ∃ y, ys !! k = Some y ∧ f (i + k) x = Normal y.
Proof.
  revert i. induction l as [|x l IH]; intros i Hall.
  - exists []. by repeat split.
  - destruct (Hall 0 x eq_refl) as [y Hy].
    destruct (IH (S i)) as (ys & Hys & Hlen & Hat).
    { intros k x' Hk. destruct (Hall (S k) x' Hk) as [y' Hy'].
      exists y'. by replace (S i + k) with (i + S k) by lia. }
    exists (y :: ys). simpl. rewrite Nat.add_0_r in Hy. rewrite Hy. simpl.
    rewrite Hys. simpl. split; [done |]. split; [by rewrite Hlen |].
    intros [|k] x' Hk; simpl in *.
    + injection Hk as <-. exists y. by rewrite Nat.add_0_r.
    + destruct (Hat k x' Hk) as (y' & Hy' & Hf).
      exists y'. by replace (i + S k) with (S i + k) by lia.
Qed.

(** When every element either passes or throws [e], and one throws, the
    whole map throws [e]. *)
Lemma mapM_index_Throw {A B} (f : nat → A → Completion B) (e : Exception)
  (i : nat) (l : list A) :
  (∀ k x, l !! k = Some x → (∃ y, f (i + k) x = Normal y) ∨ f (i + k) x = Throw e) →
  (∃ k x, l !! k = Some x ∧ f (i + k) x = Throw e) →
  mapM_index f i l = Throw e.
Proof.
  revert i. induction l as [|x l IH]; intros i Hall (k & x' & Hk & Hthrow); [done |].
  simpl. destruct (Hall 0 x eq_refl) as [[y Hy]|Hy]; rewrite Nat.add_0_r in Hy;
    rewrite Hy; simpl; [| done].
  destruct k as [|k]; simpl in Hk.
  { injection Hk as <-. rewrite Nat.add_0_r in Hthrow. congruence. }
  rewrite (IH (S i)); [done | |].
  - intros k' x'' Hk'. replace (S i + k') with (i + S k') by lia. by apply Hall.
  - exists k, x'. split; [done |]. by replace (S i + k) with (i + S k) by lia.
Qed.

Lemma mc_renderOption_Normal
  (game : Game) (q : Question.t) (qIndex : nat) (s : MultipleChoiceGame.State)
  (o : jsstring) :
  questions game !! qIndex = Some q →
  MultipleChoiceView.renderOption game q qIndex s o =
    Normal
      {| MultipleChoiceView.optionText := o;
         MultipleChoiceView.checked :=
           bool_decide (MultipleChoiceGame.selectedAnswers s !! qIndex = Some o);
         MultipleChoiceView.radioDisabled := MultipleChoiceGame.revealed qIndex s;
         MultipleChoiceView.struck :=
           MultipleChoiceGame.revealed qIndex s
           && bool_decide (MultipleChoiceGame.selectedAnswers s !! qIndex = Some o)
           && negb (bool_decide (MultipleChoiceGame.selectedAnswers s !! qIndex
                                 = Some (Question.correctAnswer q)));
         MultipleChoiceView.correctMark :=
           MultipleChoiceGame.revealed qIndex s
           && bool_decide (Question.correctAnswer q = o) |}.
Proof.
  intros Hq. unfold MultipleChoiceView.renderOption, MultipleChoiceGame.isCorrect.
  rewrite Hq.
  by destruct (MultipleChoiceGame.revealed qIndex s),
       (bool_decide (MultipleChoiceGame.selectedAnswers s !! qIndex = Some o)).
Qed.

Lemma mc_renderFeedback_Normal
  (game : Game) (q : Question.t) (qIndex : nat) (s : MultipleChoiceGame.State) :
  questions game !! qIndex = Some q →
  ∃ fb, MultipleChoiceGame.renderFeedback game q qIndex s = Normal fb
        ∧ (is_Some fb ↔ MultipleChoiceGame.revealed qIndex s = true).
Proof.
  intros Hq. unfold MultipleChoiceGame.renderFeedback, MultipleChoiceGame.isCorrect.
  rewrite Hq. destruct (MultipleChoiceGame.revealed qIndex s); simpl.
  - eexists. split; [done |]. split; [done |]. by eexists.
  - exists None. split; [done |]. split; [by intros [? ?] | done].
Qed.

Lemma mc_renderQuestion_Normal
  (game : Game) (s : MultipleChoiceGame.State) (qIndex : nat) (q : Question.t) :
  questions game !! qIndex = Some q →
  ∃ qv, MultipleChoiceView.renderQuestion game s qIndex q = Normal qv
        ∧ MultipleChoiceView.number qv = qIndex + 1
        ∧ MultipleChoiceView.prompt qv = Question.question q
        ∧ MultipleChoiceView.optionText <$> MultipleChoiceView.optionViews qv
          = Question.options q
        ∧ (MultipleChoiceView.checkButton qv = None ↔
           MultipleChoiceGame.revealed qIndex s = true)
        ∧ (is_Some (MultipleChoiceView.feedback qv) ↔
           MultipleChoiceGame.revealed qIndex s = true).
Proof.
  intros Hq. unfold MultipleChoiceView.renderQuestion.
  destruct (mapM_index_Normal
              (λ _ o, MultipleChoiceView.renderOption game q qIndex s o) 0
              (Question.options q)) as (opts & -> & Hlen & Hat).
  { intros k o _. eexists. by apply mc_renderOption_Normal. }
  destruct (mc_renderFeedback_Normal game q qIndex s Hq) as (fb & -> & Hfb).
  simpl. eexists. split; [done |]. simpl. repeat split; try done.
  - apply list_eq. intros k. rewrite list_lookup_fmap.
    destruct (Question.options q !! k) as [o|] eqn:Hk.
    + destruct (Hat k o Hk) as (ov & -> & Hov). simpl in *.
      rewrite mc_renderOption_Normal in Hov by done. by injection Hov as <-.
    + apply lookup_ge_None in Hk. rewrite <- Hlen in Hk.
      apply lookup_ge_None in Hk. by rewrite Hk.
  - by destruct (MultipleChoiceGame.revealed qIndex s).
  - by destruct (MultipleChoiceGame.revealed qIndex s).
  - by apply Hfb.
  - by apply Hfb.
Qed.

(** The multiple-choice widget renders in every state, revealed
    questions included: the view shows the score over the number of
    questions and holds one entry per question, in order, numbered from 1,
    with the question's options in order and with either the Check Answer
    button or the feedback panel, never both. *)
Theorem MultipleChoice_render_never_throws
  (game : Game) (s : MultipleChoiceGame.State) :
  ∃ view,
    MultipleChoiceView.render game s = Normal view
    ∧ MultipleChoiceView.scoreShown view = MultipleChoiceGame.score s
    ∧ MultipleChoiceView.scoreOutOf view = length (questions game)
    ∧ length (MultipleChoiceView.questionViews view) = length (questions game)
    ∧ ∀ i q, questions game !! i = Some q →
        ∃ qv, MultipleChoiceView.questionViews view !! i = Some qv
              ∧ MultipleChoiceView.number qv = i + 1
              ∧ MultipleChoiceView.prompt qv = Question.question q
              ∧ MultipleChoiceView.optionText <$> MultipleChoiceView.optionViews qv
                = Question.options q
              ∧ (MultipleChoiceView.checkButton qv = None ↔
                 MultipleChoiceGame.revealed i s = true)
              ∧ (is_Some (MultipleChoiceView.feedback qv) ↔
                 MultipleChoiceGame.revealed i s = true).
Proof.
  unfold MultipleChoiceView.render.
  destruct (mapM_index_Normal (MultipleChoiceView.renderQuestion game s) 0 (questions game))
    as (qs & -> & Hlen & Hat).
  { intros k q Hk. destruct (mc_renderQuestion_Normal game s k q Hk) as (qv & Hqv & _).
    by exists qv. }
  simpl. eexists. split; [done |]. simpl. repeat split; [done |].
  intros i q Hi. destruct (Hat i q Hi) as (qv & Hqv & Hrender). simpl in Hrender.
  destruct (mc_renderQuestion_Normal game s i q Hi) as (qv' & Hqv' & Hprops).
  exists qv. split; [done |]. congruence.
Qed.

Lemma MultipleChoice_render_never_throws_witness :
  let q := {| Question.question := js "Capital of France?";
              Question.options := [js "Paris"; js "Rome"];
              Question.correctAnswer := js "Paris";
              Question.explanation := js "Paris is the capital.";
              Question.hint := None |} in
  let game := {| type := js "multipleChoice"; title := js "T"; description := js "D";
                 questions := [q]; blanks := [] |} in
  let s := MultipleChoiceGame.run MultipleChoiceGame.initial
             [MultipleChoiceGame.RecordResponse 0 (js "Rome");
              MultipleChoiceGame.CheckAnswer 0 (js "Paris")] in
  ∃ view qv,
    MultipleChoiceView.render game s = Normal view
    ∧ MultipleChoiceView.questionViews view !! 0 = Some qv
    ∧ MultipleChoiceView.checkButton qv = None
    ∧ is_Some (MultipleChoiceView.feedback qv).
Proof.
  intros q game s.
  destruct (MultipleChoice_render_never_throws game s) as (view & Hr & _ & _ & _ & Hat).
  destruct (Hat 0 q eq_refl) as (qv & Hqv & _ & _ & _ & Hbtn & Hfb).
  exists view, qv. split; [exact Hr |]. split; [exact Hqv |].
  split; [apply Hbtn; reflexivity | apply Hfb; reflexivity].
Defined.

(** On a rendered option the check mark sits exactly on the options equal
    to the correct answer of a revealed question, the strike-through
    exactly on the selected option of a revealed question when it is
    wrong, and no option carries both. *)
Theorem MultipleChoice_option_marks
  (game : Game) (q : Question.t) (qIndex : nat) (s : MultipleChoiceGame.State)
  (o : jsstring) :
  questions game !! qIndex = Some q →
  ∃ ov,
    MultipleChoiceView.renderOption game q qIndex s o = Normal ov
    ∧ (MultipleChoiceView.correctMark ov = true ↔
       MultipleChoiceGame.revealed qIndex s = true ∧ o = Question.correctAnswer q)
    ∧ (MultipleChoiceView.struck ov = true ↔
       MultipleChoiceGame.revealed qIndex s = true
       ∧ MultipleChoiceGame.selectedAnswers s !! qIndex = Some o
       ∧ o ≠ Question.correctAnswer q)
    ∧ ¬ (MultipleChoiceView.struck ov = true ∧ MultipleChoiceView.correctMark ov = true)
    ∧ (MultipleChoiceView.radioDisabled ov = MultipleChoiceGame.revealed qIndex s).
Proof.
  intros Hq. eexists. split; [by apply mc_renderOption_Normal |]. simpl.
  rewrite !andb_true_iff, negb_true_iff, !bool_decide_eq_true, bool_decide_eq_false.
  repeat split; intuition congruence.
Qed.

Lemma MultipleChoice_option_marks_witness :
  let q := {| Question.question := js "Capital of France?";
              Question.options := [js "Paris"; js "Rome"];
              Question.correctAnswer := js "Paris";
              Question.explanation := js "Paris is the capital.";
              Question.hint := None |} in
  let game := {| type := js "multipleChoice"; title := js "T"; description := js "D";
                 questions := [q]; blanks := [] |} in
  let s := MultipleChoiceGame.run MultipleChoiceGame.initial
             [MultipleChoiceGame.RecordResponse 0 (js "Rome");
              MultipleChoiceGame.CheckAnswer 0 (js "Paris")] in
  ∃ rome paris,
    MultipleChoiceView.renderOption game q 0 s (js "Rome") = Normal rome
    ∧ MultipleChoiceView.struck rome = true
    ∧ MultipleChoiceView.renderOption game q 0 s (js "Paris") = Normal paris
    ∧ MultipleChoiceView.correctMark paris = true.
Proof.
  intros q game s.
  destruct (MultipleChoice_option_marks game q 0 s (js "Rome") eq_refl)
    as (rome & Hrome & _ & Hstruck & _).
  destruct (MultipleChoice_option_marks game q 0 s (js "Paris") eq_refl)
    as (paris & Hparis & Hmark & _).
  exists rome, paris. split; [exact Hrome |].
  split; [apply Hstruck; split; [reflexivity | split; [reflexivity | discriminate]] |].
  split; [exact Hparis |].
  apply Hmark. split; reflexivity.
Defined.

(** On the first check of a session, made with the question's own
    correct answer, the panel says "Correct!" exactly when the point is
    given; when it says "Incorrect" it shows the correct answer; and it
    shows the question's explanation. *)
Theorem MultipleChoice_verdict_agrees_with_credit
  (game : Game) (q : Question.t) (qIndex : nat) (s : MultipleChoiceGame.State) :
  questions game !! qIndex = Some q →
  MultipleChoiceGame.submitted s = false →
  let s' := MultipleChoiceGame.handleSubmitAnswer qIndex (Question.correctAnswer q) s in
  ∃ panel,
    MultipleChoiceGame.renderFeedback game q qIndex s' = Normal (Some panel)
    ∧ (verdict panel = true ↔ MultipleChoiceGame.score s' = MultipleChoiceGame.score s + 1)
    ∧ (verdict panel = false ↔ MultipleChoiceGame.score s' = MultipleChoiceGame.score s)
    ∧ shownAnswer panel =
        (if verdict panel then None else Some (Question.correctAnswer q))
    ∧ explanationText panel = Some (Question.explanation q).
Proof.
  intros Hq Hunlocked s'. subst s'.
  unfold MultipleChoiceGame.renderFeedback, MultipleChoiceGame.isCorrect,
    MultipleChoiceGame.revealed.
  simpl. rewrite lookup_insert_eq, Hq, Hunlocked. simpl.
  eexists. split; [done |]. simpl.
  destruct (bool_decide _); simpl; repeat split; (done || lia).
Qed.

Lemma MultipleChoice_verdict_agrees_with_credit_witness :
  let q := {| Question.question := js "Capital of France?";
              Question.options := [js "Paris"; js "Rome"];
              Question.correctAnswer := js "Paris";
              Question.explanation := js "Paris is the capital.";
              Question.hint := None |} in
  let game := {| type := js "multipleChoice"; title := js "T"; description := js "D";
                 questions := [q]; blanks := [] |} in
  let s := MultipleChoiceGame.handleOptionChange 0 (js "Rome") MultipleChoiceGame.initial in
  ∃ panel,
    MultipleChoiceGame.renderFeedback game q 0
      (MultipleChoiceGame.handleSubmitAnswer 0 (js "Paris") s) = Normal (Some panel)
    ∧ verdict panel = false
    ∧ shownAnswer panel = Some (js "Paris").
Proof.
  intros q game s.
  destruct (MultipleChoice_verdict_agrees_with_credit game q 0 s eq_refl eq_refl)
    as (panel & Hr & _ & Hwrong & Hshown & _).
  assert (Hv : verdict panel = false) by (apply Hwrong; reflexivity).
  exists panel. split; [exact Hr |]. split; [exact Hv |].
  rewrite Hshown, Hv. reflexivity.
Defined.

(** ** What the user can reach in the multiple-choice widget *)

Lemma mc_ui_step_keeps_revealed
  (game : Game) (s : MultipleChoiceGame.State) (ev : MultipleChoiceView.UiEvent) (qi : nat) :
  MultipleChoiceGame.revealed qi s = true →
  MultipleChoiceGame.revealed qi (MultipleChoiceView.ui_step game s ev) = true
  ∧ MultipleChoiceGame.selectedAnswers (MultipleChoiceView.ui_step game s ev) !! qi
    = MultipleChoiceGame.selectedAnswers s !! qi.
Proof.
  intros Hrev. destruct ev as [j oi|j]; simpl.
  - destruct (questions game !! j) as [q|]; [| done].
    destruct (Question.options q !! oi) as [o|]; [| done].
    destruct (MultipleChoiceGame.revealed j s) eqn:Hj; [done |].
    assert (j ≠ qi) by congruence.
    unfold MultipleChoiceGame.revealed in *. simpl.
    by rewrite !lookup_insert_ne.
  - destruct (questions game !! j) as [q|]; [| done].
    destruct (MultipleChoiceGame.revealed j s) eqn:Hj; [done |].
    destruct (MultipleChoiceGame.checkDisabled j s); [done |].
    assert (j ≠ qi) by congruence.
    unfold MultipleChoiceGame.revealed in *. simpl.
    by rewrite lookup_insert_ne.
Qed.

(** Once a question is revealed, nothing the user can do in the widget
    hides its feedback again or changes its response: the radio buttons of
    a revealed question are disabled and its Check Answer button is gone. *)
Theorem MultipleChoice_revealed_is_final
  (game : Game) (s : MultipleChoiceGame.State)
  (evs : list MultipleChoiceView.UiEvent) (qi : nat) :
  MultipleChoiceGame.revealed qi s = true →
  MultipleChoiceGame.revealed qi (MultipleChoiceView.ui_run game s evs) = true
  ∧ MultipleChoiceGame.selectedAnswers (MultipleChoiceView.ui_run game s evs) !! qi
    = MultipleChoiceGame.selectedAnswers s !! qi.
Proof.
  revert s. induction evs as [|ev evs IH]; intros s Hrev; [done |].
  destruct (mc_ui_step_keeps_revealed game s ev qi Hrev) as [Hrev' Hsel'].
  destruct (IH _ Hrev') as [Hrev'' Hsel''].
  unfold MultipleChoiceView.ui_run in *. simpl. by rewrite Hsel'', Hsel'.
Qed.

Lemma mc_ui_invariant_initial (game : Game) :
  MultipleChoiceView.ui_invariant game MultipleChoiceGame.initial.
Proof.
  unfold MultipleChoiceView.ui_invariant, MultipleChoiceGame.revealed. simpl.
  repeat split; (done || lia).
Qed.

Lemma mc_checkDisabled_false (qi : nat) (s : MultipleChoiceGame.State) :
  MultipleChoiceGame.checkDisabled qi s = false →
  ∃ o, MultipleChoiceGame.selectedAnswers s !! qi = Some o ∧ o ≠ [].
Proof.
  unfold MultipleChoiceGame.checkDisabled.
  destruct (MultipleChoiceGame.selectedAnswers s !! qi) as [o|]; simpl; [| done].
  intros Ht. exists o. split; [done |]. by intros ->.
Qed.

Lemma mc_ui_invariant_step
  (game : Game) (s : MultipleChoiceGame.State) (ev : MultipleChoiceView.UiEvent) :
  MultipleChoiceView.ui_invariant game s →
  MultipleChoiceView.ui_invariant game (MultipleChoiceView.ui_step game s ev).
Proof.
  intros Hinv. pose proof Hinv as (Hsel & Hrev & Hunl & Hle & Hcred).
  destruct ev as [qi oi|qi]; simpl.
  - destruct (questions game !! qi) as [q|] eqn:Hq; [| done].
    destruct (Question.options q !! oi) as [o|] eqn:Ho; [| done].
    destruct (MultipleChoiceGame.revealed qi s) eqn:Hr; [done |].
    unfold MultipleChoiceView.ui_invariant, MultipleChoiceGame.revealed in *. simpl.
    split; [| split; [| split; [done | split; [done |]]]].
    + intros i o' Hi. destruct (decide (qi = i)) as [<-|Hne].
      * rewrite lookup_insert_eq in Hi. injection Hi as <-.
        exists q. split; [done |]. by eapply list_elem_of_lookup_2.
      * rewrite lookup_insert_ne in Hi by done. by apply Hsel.
    + intros i Hi. destruct (decide (qi = i)) as [<-|Hne].
      * by rewrite lookup_insert_eq in Hi.
      * rewrite lookup_insert_ne in Hi by done. rewrite lookup_insert_ne by done.
        by apply Hrev.
    + intros H1. destruct (Hcred H1) as (i & q' & Hq' & Hri & Hsi).
      assert (qi ≠ i) by congruence.
      exists i, q'. by rewrite !lookup_insert_ne.
  - destruct (questions game !! qi) as [q|] eqn:Hq; [| done].
    destruct (MultipleChoiceGame.revealed qi s) eqn:Hr; [done |].
    destruct (MultipleChoiceGame.checkDisabled qi s) eqn:Hd; [done |].
    apply mc_checkDisabled_false in Hd as (o & Ho & Hne).
    unfold MultipleChoiceView.ui_invariant, MultipleChoiceGame.revealed in *. simpl.
    split; [done |]. split; [| split; [done | split]].
    + intros i Hi. destruct (decide (qi = i)) as [<-|Hni].
      * by exists o.
      * rewrite lookup_insert_ne in Hi by done. by apply Hrev.
    + destruct (MultipleChoiceGame.submitted s); simpl.
      * by rewrite andb_false_r.
      * rewrite Hunl by done. destruct (bool_decide _); simpl; lia.
    + destruct (bool_decide _) eqn:Hok; simpl.
      * destruct (MultipleChoiceGame.submitted s); simpl.
        -- intros H1. destruct (Hcred H1) as (i & q' & Hq' & Hri & Hsi).
           exists i, q'. split; [done |]. split; [| done].
           destruct (decide (qi = i)) as [<-|Hni];
             [by rewrite lookup_insert_eq | by rewrite lookup_insert_ne].
        -- intros _. apply bool_decide_eq_true in Hok.
           exists qi, q. by rewrite lookup_insert_eq.
      * intros H1. destruct (Hcred H1) as (i & q' & Hq' & Hri & Hsi).
        exists i, q'. split; [done |]. split; [| done].
        destruct (decide (qi = i)) as [<-|Hni];
          [by rewrite lookup_insert_eq | by rewrite lookup_insert_ne].
Qed.

Lemma mc_ui_invariant_run
  (game : Game) (s : MultipleChoiceGame.State) (evs : list MultipleChoiceView.UiEvent) :
  MultipleChoiceView.ui_invariant game s →
  MultipleChoiceView.ui_invariant game (MultipleChoiceView.ui_run game s evs).
Proof.
  revert s. induction evs as [|ev evs IH]; intros s Hinv; [done |].
  apply IH. by apply mc_ui_invariant_step.
Qed.

(** In a widget driven from its fresh state through its controls, every
    revealed item is a question of the game whose recorded response is a
    non-empty option of that very question. *)
Theorem MultipleChoice_revealed_items_hold_an_option
  (game : Game) (evs : list MultipleChoiceView.UiEvent) (i : nat) :
  MultipleChoiceGame.revealed i
    (MultipleChoiceView.ui_run game MultipleChoiceGame.initial evs) = true →
  ∃ q o,
    questions game !! i = Some q
    ∧ MultipleChoiceGame.selectedAnswers
        (MultipleChoiceView.ui_run game MultipleChoiceGame.initial evs) !! i = Some o
    ∧ o ∈ Question.options q
    ∧ o ≠ [].
Proof.
  intros Hrev.
  destruct (mc_ui_invariant_run game _ evs (mc_ui_invariant_initial game))
    as (Hsel & Hrevd & _).
  destruct (Hrevd i Hrev) as (o & Ho & Hne).
  destruct (Hsel i o Ho) as (q & Hq & Hin).
  by exists q, o.
Qed.

(** In a widget driven from its fresh state through its controls, the
    score shown never exceeds 1 nor the number of questions, and a score
    of 1 comes with a revealed question whose response is its correct
    answer. *)
Theorem MultipleChoice_score_within_total
  (game : Game) (evs : list MultipleChoiceView.UiEvent) :
  let s := MultipleChoiceView.ui_run game MultipleChoiceGame.initial evs in
  MultipleChoiceGame.score s ≤ 1
  ∧ MultipleChoiceGame.score s ≤ length (questions game)
  ∧ (MultipleChoiceGame.score s = 1 →
     ∃ i q, questions game !! i = Some q
            ∧ MultipleChoiceGame.revealed i s = true
            ∧ MultipleChoiceGame.selectedAnswers s !! i = Some (Question.correctAnswer q)).
Proof.
  intros s.
  destruct (mc_ui_invariant_run game _ evs (mc_ui_invariant_initial game))
    as (_ & _ & _ & Hle & Hcred).
  fold s in Hle, Hcred.
  split; [done |]. split; [| done].
  destruct (decide (MultipleChoiceGame.score s = 1)) as [H1|H1]; [| lia].
  destruct (Hcred H1) as (i & q & Hq & _). apply lookup_lt_Some in Hq. lia.
Qed.

(** A question whose correct answer is not among its options can never be
    answered correctly through the widget: its verdict is "Incorrect" in
    every reachable session and checking it gives no point. *)
Theorem MultipleChoice_unlisted_answer_is_never_correct
  (game : Game) (evs : list MultipleChoiceView.UiEvent) (i : nat) (q : Question.t) :
  questions game !! i = Some q →
  Question.correctAnswer q ∉ Question.options q →
  let s := MultipleChoiceView.ui_run game MultipleChoiceGame.initial evs in
  MultipleChoiceGame.isCorrect game i s = Normal false
  ∧ MultipleChoiceGame.score (MultipleChoiceView.ui_step game s (MultipleChoiceView.ClickCheck i))
    = MultipleChoiceGame.score s.
Proof.
  intros Hq Hnot s.
  destruct (mc_ui_invariant_run game _ evs (mc_ui_invariant_initial game)) as (Hsel & _).
  fold s in Hsel.
  assert (Hwrong : MultipleChoiceGame.selectedAnswers s !! i ≠ Some (Question.correctAnswer q)).
  { intros Hi. destruct (Hsel _ _ Hi) as (q' & Hq' & Hin). congruence. }
  split.
  - unfold MultipleChoiceGame.isCorrect. rewrite Hq. by rewrite bool_decide_eq_false_2.
  - simpl. rewrite Hq.
    destruct (MultipleChoiceGame.revealed i s); [done |].
    destruct (MultipleChoiceGame.checkDisabled i s); [done |].
    simpl. by rewrite bool_decide_eq_false_2.
Qed.

Lemma MultipleChoice_revealed_is_final_witness :
  let s := MultipleChoiceView.ui_run sampleQuiz MultipleChoiceGame.initial
             [MultipleChoiceView.ChooseOption 0 1; MultipleChoiceView.ClickCheck 0] in
  let later := [MultipleChoiceView.ChooseOption 0 0; MultipleChoiceView.ClickCheck 0;
                MultipleChoiceView.ChooseOption 1 0] in
  MultipleChoiceGame.revealed 0 (MultipleChoiceView.ui_run sampleQuiz s later) = true
  ∧ MultipleChoiceGame.selectedAnswers (MultipleChoiceView.ui_run sampleQuiz s later) !! 0
    = Some (js "Rome").
Proof.
  intros s later.
  destruct (MultipleChoice_revealed_is_final sampleQuiz s later 0 eq_refl) as [Hrev Hsel].
  split; [exact Hrev |]. rewrite Hsel. reflexivity.
Defined.

Lemma MultipleChoice_revealed_items_hold_an_option_witness :
  ∃ q o,
    questions sampleQuiz !! 0 = Some q
    ∧ MultipleChoiceGame.selectedAnswers
        (MultipleChoiceView.ui_run sampleQuiz MultipleChoiceGame.initial
           [MultipleChoiceView.ChooseOption 0 1; MultipleChoiceView.ClickCheck 0]) !! 0
      = Some o
    ∧ o ∈ Question.options q
    ∧ o ≠ [].
Proof.
  apply (MultipleChoice_revealed_items_hold_an_option sampleQuiz
           [MultipleChoiceView.ChooseOption 0 1; MultipleChoiceView.ClickCheck 0] 0).
  reflexivity.
Defined.

Lemma MultipleChoice_score_within_total_witness :
  let s := MultipleChoiceView.ui_run sampleQuiz MultipleChoiceGame.initial
             [MultipleChoiceView.ChooseOption 0 0; MultipleChoiceView.ClickCheck 0;
              MultipleChoiceView.ChooseOption 1 0; MultipleChoiceView.ClickCheck 1] in
  MultipleChoiceGame.score s = 1
  ∧ ∃ i q, questions sampleQuiz !! i = Some q
           ∧ MultipleChoiceGame.revealed i s = true
           ∧ MultipleChoiceGame.selectedAnswers s !! i = Some (Question.correctAnswer q).
Proof.
  intros s.
  destruct (MultipleChoice_score_within_total sampleQuiz
              [MultipleChoiceView.ChooseOption 0 0; MultipleChoiceView.ClickCheck 0;
               MultipleChoiceView.ChooseOption 1 0; MultipleChoiceView.ClickCheck 1])
    as (_ & _ & Hcred).
  split; [reflexivity |]. apply Hcred. reflexivity.
Defined.

Lemma MultipleChoice_unlisted_answer_is_never_correct_witness :
  let s := MultipleChoiceView.ui_run sampleQuiz MultipleChoiceGame.initial
             [MultipleChoiceView.ChooseOption 1 1] in
  MultipleChoiceGame.isCorrect sampleQuiz 1 s = Normal false
  ∧ MultipleChoiceGame.score
      (MultipleChoiceView.ui_step sampleQuiz s (MultipleChoiceView.ClickCheck 1))
    = MultipleChoiceGame.score s.
Proof.
  apply (MultipleChoice_unlisted_answer_is_never_correct sampleQuiz
           [MultipleChoiceView.ChooseOption 1 1] 1 unlistedQuestion).
  - reflexivity.
  - apply (bool_decide_unpack _). vm_compute. exact I.
Defined.

(** ** Sentences and their inputs *)

Lemma split_not_nil (sep : N) (s : jsstring) : split sep s ≠ [].
Proof.
  destruct s as [|c rest]; simpl; [done |].
  destruct (N.eqb c sep); [done |]. by destruct (split sep rest).
Qed.

Lemma length_split (sep : N) (s : jsstring) :
  length (split sep s) = S (length (filter (λ c, c = sep) s)).
Proof.
  induction s as [|c rest IH]; simpl; [done |].
  destruct (N.eqb_spec c sep) as [->|Hne].
  - rewrite filter_cons_True by done. simpl. by rewrite IH.
  - rewrite filter_cons_False by done.
    destruct (split sep rest) as [|piece pieces] eqn:Hs; simpl in *; [lia | done].
Qed.

Lemma join_split (sep : N) (s : jsstring) : join sep (split sep s) = s.
Proof.
  induction s as [|c rest IH]; simpl; [done |].
  pose proof (split_not_nil sep rest) as Hnn.
  destruct (N.eqb_spec c sep) as [->|Hne].
  - destruct (split sep rest) as [|piece pieces] eqn:Hs; [done |].
    simpl in *. by rewrite IH.
  - destruct (split sep rest) as [|piece pieces] eqn:Hs; [done |].
    simpl in *. destruct pieces as [|piece' pieces]; simpl in *; by rewrite <- IH.
Qed.

Lemma split_has_input_iff (sep : N) (s : jsstring) :
  1 < length (split sep s) ↔ sep ∈ s.
Proof.
  rewrite length_split. split.
  - intros Hlen. destruct (filter (λ c, c = sep) s) as [|c l] eqn:Hf; [simpl in Hlen; lia |].
    assert (Hin : c ∈ filter (λ c, c = sep) s) by (rewrite Hf; left).
    apply list_elem_of_filter in Hin as [-> Hin]. done.
  - intros Hin.
    assert (Hf : sep ∈ filter (λ c, c = sep) s) by by apply list_elem_of_filter.
    destruct (filter (λ c, c = sep) s); [by apply elem_of_nil in Hf | simpl; lia].
Qed.

Lemma fib_renderSentence_pieces
  (b : Blank.t) (bIndex : nat) (s : FillInTheBlanksGame.State) :
  fst <$> FillInTheBlanksView.renderSentence b bIndex s
  = split underscore (Blank.sentence b).
Proof.
  unfold FillInTheBlanksView.renderSentence. apply list_eq. intros k.
  rewrite list_lookup_fmap, list_lookup_imap.
  by destruct (split underscore (Blank.sentence b) !! k).
Qed.

Lemma fib_renderSentence_inputs
  (b : Blank.t) (bIndex : nat) (s : FillInTheBlanksGame.State) :
  snd <$> FillInTheBlanksView.renderSentence b bIndex s
  = replicate (length (filter (λ c, c = underscore) (Blank.sentence b)))
      (Some {| FillInTheBlanksView.value :=
                 match FillInTheBlanksGame.userAnswers s !! bIndex with
                 | Some r => if truthy r then r else []
                 | None => []
                 end;
               FillInTheBlanksView.inputDisabled :=
                 FillInTheBlanksGame.revealed bIndex s |})
    ++ [None].
Proof.
  unfold FillInTheBlanksView.renderSentence.
  pose proof (length_split underscore (Blank.sentence b)) as Hlen.
  set (n := length (filter (λ c, c = underscore) (Blank.sentence b))) in *.
  apply list_eq. intros k. rewrite list_lookup_fmap, list_lookup_imap, Hlen.
  destruct (decide (k < n)) as [Hk|Hk].
  - destruct (lookup_lt_is_Some_2 (split underscore (Blank.sentence b)) k) as [p Hp]; [lia |].
    rewrite Hp. simpl. rewrite bool_decide_eq_true_2 by lia.
    rewrite lookup_app_l by (rewrite length_replicate; lia).
    by rewrite lookup_replicate_2.
  - destruct (decide (k = n)) as [->|Hk'].
    + destruct (lookup_lt_is_Some_2 (split underscore (Blank.sentence b)) n) as [p Hp]; [lia |].
      rewrite Hp. simpl. rewrite bool_decide_eq_false_2 by lia.
      rewrite lookup_app_r by (rewrite length_replicate; lia).
      by rewrite length_replicate, Nat.sub_diag.
    + rewrite (lookup_ge_None_2 (split _ _)) by lia. simpl.
      symmetry. apply lookup_ge_None_2. rewrite length_app, length_replicate. simpl. lia.
Qed.

(** A sentence is rendered as its pieces between the ['_'], in order, each
    but the last followed by an input: reading ['_'] for each input gives
    the sentence back, there are as many inputs as the sentence has ['_'],
    and all of them show the blank's one stored response (the empty text
    when there is none) and are disabled together once the blank is
    revealed. *)
Theorem FillInTheBlanks_sentence_inputs
  (b : Blank.t) (bIndex : nat) (s : FillInTheBlanksGame.State) :
  let shown :=
    {| FillInTheBlanksView.value :=
         match FillInTheBlanksGame.userAnswers s !! bIndex with
         | Some r => if truthy r then r else []
         | None => []
         end;
       FillInTheBlanksView.inputDisabled := FillInTheBlanksGame.revealed bIndex s |} in
  fst <$> FillInTheBlanksView.renderSentence b bIndex s
  = split underscore (Blank.sentence b)
  ∧ join underscore (fst <$> FillInTheBlanksView.renderSentence b bIndex s)
    = Blank.sentence b
  ∧ snd <$> FillInTheBlanksView.renderSentence b bIndex s
    = replicate (length (filter (λ c, c = underscore) (Blank.sentence b))) (Some shown)
      ++ [None].
Proof.
  intros shown. split; [apply fib_renderSentence_pieces |].
  split.
  - rewrite fib_renderSentence_pieces. apply join_split.
  - apply fib_renderSentence_inputs.
Qed.

(** ** The fill-in-the-blanks widget as a whole *)

Lemma bounded_search (P : nat → bool) (n : nat) :
  (∀ i, i < n → P i = false) ∨ (∃ i, i < n ∧ P i = true).
Proof.
  induction n as [|n [IH|(i & Hi & HP)]].
  - left. intros i Hi. lia.
  - destruct (P n) eqn:Hn.
    + right. exists n. split; [lia | done].
    + left. intros i Hi. destruct (decide (i = n)) as [->|Hne]; [done |].
      apply IH. lia.
  - right. exists i. split; [lia | done].
Qed.

Lemma fib_renderBlank_outcome
  `{!StringPrototype} (s : FillInTheBlanksGame.State) (i : nat) (b : Blank.t) :
  (FillInTheBlanksGame.revealed i s = false ∧
   ∃ bv, FillInTheBlanksView.renderBlank s i b = Normal bv)
  ∨ (FillInTheBlanksGame.revealed i s = true ∧
     FillInTheBlanksView.renderBlank s i b = Throw (ReferenceError "q")).
Proof.
  unfold FillInTheBlanksView.renderBlank.
  destruct (FillInTheBlanksGame.revealed i s) eqn:Hrev.
  - right. split; [done |]. by rewrite FillInTheBlanks_feedback_throws.
  - left. split; [done |]. unfold FillInTheBlanksGame.renderFeedback. rewrite Hrev.
    by eexists.
Qed.

Lemma fib_render_throws
  `{!StringPrototype} (game : Game) (s : FillInTheBlanksGame.State) (i : nat) :
  i < length (blanks game) →
  FillInTheBlanksGame.revealed i s = true →
  FillInTheBlanksView.render game s = Throw (ReferenceError "q").
Proof.
  intros Hi Hrev. unfold FillInTheBlanksView.render.
  rewrite (mapM_index_Throw (FillInTheBlanksView.renderBlank s) (ReferenceError "q"));
    [done | |].
  - intros k b _. simpl.
    destruct (fib_renderBlank_outcome s k b) as [[_ Hn]|[_ Ht]]; [by left | by right].
  - destruct (lookup_lt_is_Some_2 (blanks game) i Hi) as [b Hb].
    exists i, b. split; [done |]. simpl.
    destruct (fib_renderBlank_outcome s i b) as [[Hf _]|[_ Ht]]; [congruence | done].
Qed.

(** The fill-in-the-blanks widget renders exactly as long as none of its
    blanks is revealed: with a revealed blank the whole render throws the
    ReferenceError on [q]; with none it yields the score over the number
    of blanks and one entry per blank. *)
Theorem FillInTheBlanks_render_outcome
  `{!StringPrototype} (game : Game) (s : FillInTheBlanksGame.State) :
  ((∃ i, i < length (blanks game) ∧ FillInTheBlanksGame.revealed i s = true)
   ∧ FillInTheBlanksView.render game s = Throw (ReferenceError "q"))
  ∨ ((∀ i, i < length (blanks game) → FillInTheBlanksGame.revealed i s = false)
     ∧ ∃ view,
         FillInTheBlanksView.render game s = Normal view
         ∧ FillInTheBlanksView.scoreShown view = FillInTheBlanksGame.score s
         ∧ FillInTheBlanksView.scoreOutOf view = length (blanks game)
         ∧ length (FillInTheBlanksView.blankViews view) = length (blanks game)).
Proof.
  destruct (bounded_search (λ i, FillInTheBlanksGame.revealed i s) (length (blanks game)))
    as [Hnone|(i & Hi & Hrev)].
  - right. split; [done |]. unfold FillInTheBlanksView.render.
    destruct (mapM_index_Normal (FillInTheBlanksView.renderBlank s) 0 (blanks game))
      as (bs & -> & Hlen & _).
    { intros k b Hk. simpl.
      destruct (fib_renderBlank_outcome s k b) as [[_ Hn]|[Hr _]]; [done |].
      apply lookup_lt_Some in Hk. rewrite Hnone in Hr by done. done. }
    simpl. by eexists.
  - left. split; [by exists i |]. by eapply fib_render_throws.
Qed.

(** Every click on an enabled Check Answer button of the
    fill-in-the-blanks widget leads to a state the widget cannot render. *)
Theorem FillInTheBlanks_check_click_breaks_render
  `{!StringPrototype} (game : Game) (s : FillInTheBlanksGame.State)
  (bIndex : nat) (b : Blank.t) :
  blanks game !! bIndex = Some b →
  FillInTheBlanksGame.revealed bIndex s = false →
  FillInTheBlanksGame.checkDisabled bIndex s = false →
  FillInTheBlanksView.render game
    (FillInTheBlanksView.ui_step game s (FillInTheBlanksView.ClickCheck bIndex))
  = Throw (ReferenceError "q").
Proof.
  intros Hb Hrev Hen. simpl. rewrite Hb, Hrev, Hen.
  apply (fib_render_throws game _ bIndex).
  - by eapply lookup_lt_Some.
  - unfold FillInTheBlanksGame.revealed. simpl. by rewrite lookup_insert_eq.
Qed.

Lemma FillInTheBlanks_render_outcome_witness :
  let checked :=
    @FillInTheBlanksView.ui_run toLowerCase_ascii sampleBlanks FillInTheBlanksGame.initial
      [FillInTheBlanksView.TypeInto 0 (js "Paris"); FillInTheBlanksView.ClickCheck 0] in
  @FillInTheBlanksView.render toLowerCase_ascii sampleBlanks checked
  = Throw (ReferenceError "q")
  ∧ ∃ view,
      @FillInTheBlanksView.render toLowerCase_ascii sampleBlanks FillInTheBlanksGame.initial
      = Normal view
      ∧ FillInTheBlanksView.scoreShown view = 0
      ∧ FillInTheBlanksView.scoreOutOf view = 2.
Proof.
  intros checked. split.
  - destruct (@FillInTheBlanks_render_outcome toLowerCase_ascii sampleBlanks checked)
      as [[_ Hthrow]|[Hnone _]]; [exact Hthrow |].
    specialize (Hnone 0). simpl in Hnone.
    assert (Hlt : 0 < 2) by lia. specialize (Hnone Hlt). vm_compute in Hnone. discriminate.
  - destruct (@FillInTheBlanks_render_outcome toLowerCase_ascii sampleBlanks
                FillInTheBlanksGame.initial)
      as [[(i & _ & Hrev) _]|[_ (view & Hr & Hs & Ho & _)]].
    + unfold FillInTheBlanksGame.revealed in Hrev. simpl in Hrev.
      rewrite lookup_empty in Hrev. discriminate.
    + exists view. split; [exact Hr |]. split; [exact Hs | exact Ho].
Defined.

Lemma FillInTheBlanks_check_click_breaks_render_witness :
  let s := FillInTheBlanksGame.handleInputChange 0 (js "Paris") FillInTheBlanksGame.initial in
  @FillInTheBlanksView.render toLowerCase_ascii sampleBlanks
    (@FillInTheBlanksView.ui_step toLowerCase_ascii sampleBlanks s
       (FillInTheBlanksView.ClickCheck 0))
  = Throw (ReferenceError "q").
Proof.
  apply (@FillInTheBlanks_check_click_breaks_render toLowerCase_ascii sampleBlanks
           (FillInTheBlanksGame.handleInputChange 0 (js "Paris") FillInTheBlanksGame.initial)
           0 sampleBlank); reflexivity.
Defined.

(** ** What the user can reach in the fill-in-the-blanks widget *)

Lemma fib_ui_invariant_initial `{!StringPrototype} (game : Game) :
  FillInTheBlanksView.ui_invariant game FillInTheBlanksGame.initial.
Proof.
  intros i [[r Hr]|Hrev].
  - simpl in Hr. by rewrite lookup_empty in Hr.
  - unfold FillInTheBlanksGame.revealed in Hrev. simpl in Hrev.
    by rewrite lookup_empty in Hrev.
Qed.

Lemma fib_checkDisabled_false (bi : nat) (s : FillInTheBlanksGame.State) :
  FillInTheBlanksGame.checkDisabled bi s = false →
  ∃ r, FillInTheBlanksGame.userAnswers s !! bi = Some r ∧ ¬ blank r.
Proof.
  unfold FillInTheBlanksGame.checkDisabled.
  destruct (FillInTheBlanksGame.userAnswers s !! bi) as [r|]; simpl; [| done].
  intros Ht. exists r. split; [done |]. intros Hb. apply trim_nil_iff in Hb.
  rewrite Hb in Ht. done.
Qed.

Lemma fib_ui_invariant_step
  `{!StringPrototype} (game : Game) (s : FillInTheBlanksGame.State)
  (ev : FillInTheBlanksView.UiEvent) :
  FillInTheBlanksView.ui_invariant game s →
  FillInTheBlanksView.ui_invariant game (FillInTheBlanksView.ui_step game s ev).
Proof.
  intros Hinv. destruct ev as [bi text|bi]; simpl.
  - destruct (blanks game !! bi) as [b|] eqn:Hb; [| done].
    destruct (bool_decide (1 < length (split underscore (Blank.sentence b)))) eqn:Hslot;
      simpl; [| done].
    destruct (FillInTheBlanksGame.revealed bi s) eqn:Hrev; simpl; [done |].
    apply bool_decide_eq_true in Hslot.
    intros i Hi. destruct (decide (bi = i)) as [<-|Hne]; [by exists b |].
    apply Hinv. unfold FillInTheBlanksGame.revealed in *. simpl in Hi.
    by rewrite !lookup_insert_ne in Hi.
  - destruct (blanks game !! bi) as [b|] eqn:Hb; [| done].
    destruct (FillInTheBlanksGame.revealed bi s) eqn:Hrev; [done |].
    destruct (FillInTheBlanksGame.checkDisabled bi s) eqn:Hd; [done |].
    apply fib_checkDisabled_false in Hd as (r & Hr & _).
    intros i Hi. destruct (decide (bi = i)) as [<-|Hne].
    + apply Hinv. left. by exists r.
    + apply Hinv. unfold FillInTheBlanksGame.revealed in *. simpl in Hi.
      by rewrite lookup_insert_ne in Hi.
Qed.

Lemma fib_ui_invariant_run
  `{!StringPrototype} (game : Game) (s : FillInTheBlanksGame.State)
  (evs : list FillInTheBlanksView.UiEvent) :
  FillInTheBlanksView.ui_invariant game s →
  FillInTheBlanksView.ui_invariant game (FillInTheBlanksView.ui_run game s evs).
Proof.
  revert s. induction evs as [|ev evs IH]; intros s Hinv; [done |].
  apply IH. by apply fib_ui_invariant_step.
Qed.

(** A blank whose sentence has no ['_'] shows no input, so through the
    widget it never gets a response, its Check Answer button stays
    disabled and it is never revealed. *)
Theorem FillInTheBlanks_blank_without_slot_stays_unanswered
  `{!StringPrototype} (game : Game) (evs : list FillInTheBlanksView.UiEvent)
  (i : nat) (b : Blank.t) :
  blanks game !! i = Some b →
  underscore ∉ Blank.sentence b →
  let s := FillInTheBlanksView.ui_run game FillInTheBlanksGame.initial evs in
  snd <$> FillInTheBlanksView.renderSentence b i s = [None]
  ∧ FillInTheBlanksGame.userAnswers s !! i = None
  ∧ FillInTheBlanksGame.checkDisabled i s = true
  ∧ FillInTheBlanksGame.revealed i s = false.
Proof.
  intros Hb Hnot s.
  pose proof (fib_ui_invariant_run game _ evs (fib_ui_invariant_initial game)) as Hinv.
  fold s in Hinv.
  assert (Hno : ¬ (is_Some (FillInTheBlanksGame.userAnswers s !! i)
                   ∨ FillInTheBlanksGame.revealed i s = true)).
  { intros Hi. destruct (Hinv i Hi) as (b' & Hb' & Hslot).
    apply split_has_input_iff in Hslot. congruence. }
  split.
  { rewrite fib_renderSentence_inputs.
    assert (Hf : filter (λ c, c = underscore) (Blank.sentence b) = []).
    { destruct (filter _ _) as [|c l] eqn:Hf; [done |].
      assert (Hin : c ∈ filter (λ c, c = underscore) (Blank.sentence b))
        by (rewrite Hf; left).
      apply list_elem_of_filter in Hin as [-> Hin]. done. }
    by rewrite Hf. }
  assert (Hnone : FillInTheBlanksGame.userAnswers s !! i = None).
  { destruct (FillInTheBlanksGame.userAnswers s !! i) eqn:Hr; [| done].
    exfalso. apply Hno. left. by eexists. }
  split; [done |]. split.
  - unfold FillInTheBlanksGame.checkDisabled. by rewrite Hnone.
  - destruct (FillInTheBlanksGame.revealed i s) eqn:Hr; [| done].
    exfalso. apply Hno. by right.
Qed.

Lemma FillInTheBlanks_blank_without_slot_stays_unanswered_witness :
  let s := @FillInTheBlanksView.ui_run toLowerCase_ascii sampleBlanks
             FillInTheBlanksGame.initial
             [FillInTheBlanksView.TypeInto 1 (js "rome"); FillInTheBlanksView.ClickCheck 1] in
  snd <$> FillInTheBlanksView.renderSentence bareBlank 1 s = [None]
  ∧ FillInTheBlanksGame.userAnswers s !! 1 = None
  ∧ FillInTheBlanksGame.checkDisabled 1 s = true
  ∧ FillInTheBlanksGame.revealed 1 s = false.
Proof.
  apply (@FillInTheBlanks_blank_without_slot_stays_unanswered toLowerCase_ascii sampleBlanks
           [FillInTheBlanksView.TypeInto 1 (js "rome"); FillInTheBlanksView.ClickCheck 1]
           1 bareBlank).
  - reflexivity.
  - apply (bool_decide_unpack _). vm_compute. exact I.
Defined.

(** ** The page through a submission *)

Lemma whilePending_lessonText (s : App.State) (edits : list jsstring) :
  App.lessonText (App.whilePending s edits) = default (App.lessonText s) (last edits).
Proof.
  revert s. induction edits as [|v edits IH]; intros s; [done |].
  unfold App.whilePending in *. simpl foldl. rewrite IH. simpl.
  rewrite last_cons. by destruct (last edits).
Qed.

Lemma settle_not_blank
  (s : App.State) (edits : list jsstring) (settled : Settled Response) :
  ¬ blank (App.lessonText s) →
  let now := App.whilePending
               (App.setError [] (App.setGameData None (App.setLoading true s))) edits in
  App.settle (App.generateGames s) edits settled =
    App.setLoading false
      match settled with
      | Fulfilled {| body_json := Fulfilled jsonResponse |} =>
          App.setGameData (Some jsonResponse) now
      | Fulfilled {| body_json := Rejected err |} | Rejected err => App.catch err now
      end.
Proof.
  intros Hnb now. destruct (generateGames_not_blank s Hnb) as (resume & -> & Hres).
  simpl. by rewrite Hres.
Qed.

(** From the click on a non-blank text until the response settles, the
    page shows the text as last typed, a disabled submit button with the
    spinner, no error and no games: what an earlier submission had left on
    the page is gone at once. *)
Theorem page_while_pending (s : App.State) (edits : list jsstring) :
  ¬ blank (App.lessonText s) →
  render (App.whilePending (App.committed (App.generateGames s)) edits) =
    {| textareaValue := default (App.lessonText s) (last edits);
       textareaDisabled := false;
       submitDisabled := true;
       submitSpinner := true;
       errorPanel := None;
       gamesPanel := None |}.
Proof.
  intros Hnb. destruct (generateGames_not_blank s Hnb) as (resume & -> & _).
  simpl. unfold render.
  rewrite whilePending_lessonText, whilePending_loading, whilePending_error,
    whilePending_gameData.
  done.
Qed.

Lemma page_while_pending_witness :
  let old :=
    {| App.lessonText := js "Photosynthesis"; App.gameData := None;
       App.loading := false; App.error := App.validationMessage |} in
  render (App.whilePending (App.committed (App.generateGames old)) [js "Photo"]) =
    {| textareaValue := js "Photo";
       textareaDisabled := false;
       submitDisabled := true;
       submitSpinner := true;
       errorPanel := None;
       gamesPanel := None |}.
Proof.
  apply (page_while_pending
           {| App.lessonText := js "Photosynthesis"; App.gameData := None;
              App.loading := false; App.error := App.validationMessage |}
           [js "Photo"]).
  intros Hb. apply trim_nil_iff in Hb. vm_compute in Hb. discriminate.
Defined.

(** Once the response has settled the submit button is enabled again and
    the page shows either the games of the decoded bundle, one entry per
    game and no error, or the error message and no games. *)
Theorem page_after_settlement (s : App.State) (edits : list jsstring) :
  ¬ blank (App.lessonText s) →
  (∀ jsonResponse,
     render (App.settle (App.generateGames s) edits
               (Fulfilled {| body_json := Fulfilled jsonResponse |})) =
       {| textareaValue := default (App.lessonText s) (last edits);
          textareaDisabled := false;
          submitDisabled := false;
          submitSpinner := false;
          errorPanel := None;
          gamesPanel := Some (renderGames jsonResponse) |})
  ∧ (∀ settled err,
       failure settled = Some err →
       render (App.settle (App.generateGames s) edits settled) =
         {| textareaValue := default (App.lessonText s) (last edits);
            textareaDisabled := false;
            submitDisabled := false;
            submitSpinner := false;
            errorPanel := Some (App.displayError err);
            gamesPanel := None |}).
Proof.
  intros Hnb. split.
  - intros json. rewrite settle_not_blank by done. unfold render. simpl.
    by rewrite whilePending_lessonText, whilePending_error.
  - intros settled err Hfail. rewrite settle_not_blank by done.
    assert (Hne := displayError_not_nil err).
    destruct settled as [[[json|e]]|e]; simpl in Hfail; [done | |];
      injection Hfail as ->; unfold render; simpl;
      rewrite whilePending_lessonText, whilePending_gameData; simpl;
      by destruct (App.displayError err).
Qed.

Lemma page_after_settlement_witness :
  let s := App.setLessonText (js "Photosynthesis") App.initial in
  let bundle := {| lessonSummary := js "S"; complexity := js "C"; ageRange := js "A";
                   games := [sampleQuiz; sampleBlanks] |} in
  gamesPanel (render (App.settle (App.generateGames s) []
                        (Fulfilled {| body_json := Fulfilled bundle |})))
  = Some [Some (MultipleChoiceElement sampleQuiz); Some (FillInTheBlanksElement sampleBlanks)]
  ∧ errorPanel (render (App.settle (App.generateGames s) []
                          (Fulfilled {| body_json := Rejected {| message := None |} |})))
    = Some App.fallbackMessage.
Proof.
  intros s bundle.
  assert (Hnb : ¬ blank (App.lessonText s)).
  { intros Hb. apply trim_nil_iff in Hb. vm_compute in Hb. discriminate. }
  destruct (page_after_settlement s [] Hnb) as [Hok Hfail].
  split.
  - rewrite Hok. reflexivity.
  - rewrite (Hfail (Fulfilled {| body_json := Rejected {| message := None |} |})
               {| message := None |} eq_refl).
    reflexivity.
Defined.

(** After any settlement a click on the submit button works again and
    reads the text as last typed: blank, it issues nothing and shows the
    validation message; otherwise it issues one POST to [/items] carrying
    that text. *)
Theorem resubmission_reads_latest_text
  (s : App.State) (edits : list jsstring) (settled : Settled Response) :
  ¬ blank (App.lessonText s) →
  let final := App.settle (App.generateGames s) edits settled in
  let latest := default (App.lessonText s) (last edits) in
  App.lessonText final = latest
  ∧ clickSubmit final = App.generateGames final
  ∧ (blank latest →
     App.requests (clickSubmit final) = []
     ∧ errorPanel (render (App.committed (clickSubmit final))) = Some App.validationMessage)
  ∧ (¬ blank latest →
     App.requests (clickSubmit final)
     = [post (js "learn2gameapi") (js "/items") latest]).
Proof.
  intros Hnb final latest.
  assert (Hfinal : App.lessonText final = latest ∧ App.loading final = false).
  { subst final latest. rewrite settle_not_blank by done.
    destruct settled as [[[json|e]]|e]; simpl; by rewrite whilePending_lessonText. }
  destruct Hfinal as [Htext Hidle].
  assert (Hclick : clickSubmit final = App.generateGames final).
  { unfold clickSubmit. simpl. by rewrite Hidle. }
  split; [done |]. split; [done |]. rewrite Hclick, <- Htext. split.
  - intros Hb. apply guard_blank in Hb. unfold App.generateGames. rewrite Hb. done.
  - intros Hb. destruct (generateGames_not_blank final Hb) as (resume & -> & _). done.
Qed.

Lemma resubmission_reads_latest_text_witness :
  let s := App.setLessonText (js "Photosynthesis") App.initial in
  let final := App.settle (App.generateGames s) [js "Photo"; js "Mitosis"]
                 (Rejected {| message := Some (js "Network Error") |}) in
  App.requests (clickSubmit final) = [post (js "learn2gameapi") (js "/items") (js "Mitosis")].
Proof.
  intros s final.
  assert (Hnb : ¬ blank (App.lessonText s)).
  { intros Hb. apply trim_nil_iff in Hb. vm_compute in Hb. discriminate. }
  destruct (resubmission_reads_latest_text s [js "Photo"; js "Mitosis"]
              (Rejected {| message := Some (js "Network Error") |}) Hnb)
    as (_ & _ & _ & Hpost).
  apply Hpost. intros Hb. apply trim_nil_iff in Hb. vm_compute in Hb. discriminate.
Defined.

(** ** Checking and answering *)

(** Checking item [i] reveals it and locks the session; it changes no
    response and no other item's reveal flag.  Both widgets. *)
Theorem check_reveals_only_its_item
  `{!StringPrototype} (i j : nat) (c : jsstring)
  (m : MultipleChoiceGame.State) (f : FillInTheBlanksGame.State) :
  i ≠ j →
  let m' := MultipleChoiceGame.handleSubmitAnswer i c m in
  let f' := FillInTheBlanksGame.handleSubmitAnswer i c f in
  (MultipleChoiceGame.revealed i m' = true
   ∧ MultipleChoiceGame.submitted m' = true
   ∧ MultipleChoiceGame.selectedAnswers m' = MultipleChoiceGame.selectedAnswers m
   ∧ MultipleChoiceGame.showResults m' !! j = MultipleChoiceGame.showResults m !! j)
  ∧ (FillInTheBlanksGame.revealed i f' = true
     ∧ FillInTheBlanksGame.submitted f' = true
     ∧ FillInTheBlanksGame.userAnswers f' = FillInTheBlanksGame.userAnswers f
     ∧ FillInTheBlanksGame.showResults f' !! j = FillInTheBlanksGame.showResults f !! j).
Proof.
  intros Hne m' f'. subst m' f'.
  unfold MultipleChoiceGame.revealed, FillInTheBlanksGame.revealed. simpl.
  rewrite !lookup_insert_eq. rewrite !lookup_insert_ne by done. done.
Qed.

Lemma check_reveals_only_its_item_witness :
  let m := MultipleChoiceGame.handleOptionChange 1 (js "Rome") MultipleChoiceGame.initial in
  let m' := MultipleChoiceGame.handleSubmitAnswer 0 (js "Paris") m in
  MultipleChoiceGame.revealed 0 m' = true
  ∧ MultipleChoiceGame.revealed 1 m' = false
  ∧ MultipleChoiceGame.selectedAnswers m' !! 1 = Some (js "Rome").
Proof.
  intros m m'. subst m'.
  destruct (@check_reveals_only_its_item toLowerCase_ascii 0 1 (js "Paris") m
              FillInTheBlanksGame.initial) as [(Hrev & _ & Hsel & Hother) _]; [lia |].
  split; [exact Hrev |]. split.
  - unfold MultipleChoiceGame.revealed. rewrite Hother. reflexivity.
  - rewrite Hsel. reflexivity.
Defined.

(** An unrevealed question can always be answered: choosing one of its
    non-empty options and clicking Check Answer reveals it with that
    option recorded, locks the session, and gives the point exactly when
    the option is the correct answer and the session was not locked. *)
Theorem MultipleChoice_choose_then_check
  (game : Game) (s : MultipleChoiceGame.State) (qi oi : nat)
  (q : Question.t) (o : jsstring) :
  questions game !! qi = Some q →
  Question.options q !! oi = Some o →
  o ≠ [] →
  MultipleChoiceGame.revealed qi s = false →
  let s' := MultipleChoiceView.ui_run game s
              [MultipleChoiceView.ChooseOption qi oi; MultipleChoiceView.ClickCheck qi] in
  MultipleChoiceGame.revealed qi s' = true
  ∧ MultipleChoiceGame.selectedAnswers s' !! qi = Some o
  ∧ MultipleChoiceGame.submitted s' = true
  ∧ MultipleChoiceGame.score s' =
      (if bool_decide (o = Question.correctAnswer q) && negb (MultipleChoiceGame.submitted s)
       then MultipleChoiceGame.score s + 1 else MultipleChoiceGame.score s).
Proof.
  intros Hq Ho Hne Hrev s'. subst s'.
  unfold MultipleChoiceView.ui_run. simpl. rewrite Hq, Ho, Hrev.
  unfold MultipleChoiceGame.revealed, MultipleChoiceGame.checkDisabled. simpl.
  rewrite !lookup_insert_eq. simpl.
  destruct o as [|c o]; [done |]. simpl.
  rewrite !lookup_insert_eq. repeat split.
  destruct (decide (c :: o = Question.correctAnswer q)) as [Heq|Hneq].
  - by rewrite !bool_decide_eq_true_2 by congruence.
  - by rewrite !bool_decide_eq_false_2 by congruence.
Qed.

Lemma MultipleChoice_choose_then_check_witness :
  let s' := MultipleChoiceView.ui_run sampleQuiz MultipleChoiceGame.initial
              [MultipleChoiceView.ChooseOption 0 0; MultipleChoiceView.ClickCheck 0] in
  MultipleChoiceGame.revealed 0 s' = true
  ∧ MultipleChoiceGame.selectedAnswers s' !! 0 = Some (js "Paris")
  ∧ MultipleChoiceGame.submitted s' = true
  ∧ MultipleChoiceGame.score s' = 1.
Proof.
  apply (MultipleChoice_choose_then_check sampleQuiz MultipleChoiceGame.initial 0 0
           sampleQuestion (js "Paris")).
  - reflexivity.
  - reflexivity.
  - vm_compute. discriminate.
  - reflexivity.
Defined.

Lemma MultipleChoice_feedback_reads_own_question_witness :
  ∃ panel,
    MultipleChoiceGame.renderFeedback sampleQuiz sampleQuestion 0
      (MultipleChoiceGame.handleSubmitAnswer 0 (js "Paris") MultipleChoiceGame.initial)
    = Normal (Some panel)
    ∧ explanationText panel = Some (Question.explanation sampleQuestion)
    ∧ hintText panel = hint_line (Question.hint sampleQuestion).
Proof.
  apply (MultipleChoice_feedback_reads_own_question sampleQuiz sampleQuestion 0
           (MultipleChoiceGame.handleSubmitAnswer 0 (js "Paris") MultipleChoiceGame.initial));
    reflexivity.
Defined.
